(** * jsPsych voice-key recording plugin and image-keyboard logger

    A shallow embedding of [HtmlAudioResponsePlugin] (html-audio-response with
    the voice key) and of the two [ImageKeyboardResponsePlugin] variants.

    The plugins are event driven: every browser task (a recorder event, a
    timer, a click, a layout notification, a file-reader completion) runs one
    handler to completion.  A handler is embedded as a function on the plugin
    state; the browser is the environment that chooses which enabled task runs
    next.  Promise reactions ([.then]) are micro-tasks: they run right after
    the handler that settles the promise, so they are embedded as the tail of
    that handler.

    Times are milliseconds on the page clock ([performance.now()]), taken as
    integers; [Math.round] of an integer is that integer. *)

From Stdlib Require Import ZArith List Bool Lia Sorted.
From Stdlib Require String Ascii.
From Stdlib Require Floats Uint63.
From Stdlib.Strings Require Import Byte.
From Stdlib Require Import QArith Qreals Reals Lra.
Import ListNotations.

Open Scope Z_scope.

(** ** JavaScript numbers that may be NaN or missing *)

Module Js.

(** The result of an arithmetic expression: a number or [NaN]. *)
Inductive Num : Type :=
| NaN
| Number (z : Z).

(** [a - b] where either operand may be [undefined]: [undefined] converts
    to [NaN], and [NaN] is absorbing. *)
Definition sub (a b : option Z) : Num :=
  match a, b with
  | Some x, Some y => Number (x - y)
  | _, _ => NaN
  end.

(** [a > b] where [b] may be [undefined]: any comparison with [NaN] is
    false. *)
Definition gt (a : Num) (b : option Z) : bool :=
  match a, b with
  | Number x, Some y => y <? x
  | _, _ => false
  end.

End Js.

(** ** Voice-key amplitude *)

Module VoiceKey.

(** One entry of the [Uint8Array] filled by [getByteTimeDomainData]. *)
Definition sample (b : byte) : Z := Z.of_N (Byte.to_N b).

(** [const value = (this.dataArray[i] - 128) / 128] *)
Definition value (b : byte) : Q := (sample b - 128) # 128.

(** The loop [for (i = 0; i < bufferLength; i++) sum += value * value].
    [dataArray] is [new Uint8Array(bufferLength)], so the indices below
    [bufferLength] are exactly its entries. *)
Definition sum_squares (dataArray : list byte) (bufferLength : nat) : Q :=
  fold_left (fun sum b => (sum + value b * value b)%Q)
            (firstn bufferLength dataArray) 0%Q.

(** [sum / this.bufferLength] *)
Definition mean_square (dataArray : list byte) (bufferLength : nat) : Q :=
  (sum_squares dataArray bufferLength / inject_Z (Z.of_nat bufferLength))%Q.

(** [Math.sqrt(sum / this.bufferLength)], in exact real arithmetic. *)
Definition amplitude (dataArray : list byte) (bufferLength : nat) : R :=
  sqrt (Q2R (mean_square dataArray bufferLength)).

(** The test [amplitude > trial.amplitude_threshold], decided without
    leaving the rationals: a square root exceeds a negative bound always and
    a non-negative bound when the radicand exceeds its square.  With an
    empty buffer the quotient is [0 / 0 = NaN] and the test is false. *)
Definition exceeds (dataArray : list byte) (bufferLength : nat)
           (threshold : Q) : bool :=
  match bufferLength with
  | O => false
  | S _ =>
      if Qle_bool 0%Q threshold
      then negb (Qle_bool (mean_square dataArray bufferLength)
                          (threshold * threshold)%Q)
      else true
  end.

(** [analyzer.getByteTimeDomainData(dataArray)]: the current window
    overwrites the array from the front; a longer window is cut, a shorter
    one leaves the tail of the array as it was. *)
Definition getByteTimeDomainData (window dataArray : list byte) : list byte :=
  firstn (length dataArray) window ++ skipn (length window) dataArray.

End VoiceKey.

(** ** The html-audio-response plugin with the voice key *)

Module AudioResponse.

(** A [Blob]: the bytes of one recorded fragment or of their concatenation. *)
Definition Blob : Type := list byte.

(** The text after the comma of the data URL produced by
    [FileReader.readAsDataURL]: the base64 encoding of a blob, kept
    symbolic (the encoder belongs to the browser). *)
Inductive Base64Text : Type :=
| Base64 (data : Blob).

(** The trial parameters the handlers read ([info.parameters]); labels and
    asset paths, which only reach the markup, are left out. *)
Record Trial : Type := {
  stimulus : String.string;
  stimulus_duration : option Z;
  recording_duration : option Z;
  show_done_button : bool;
  allow_playback : bool;
  save_audio_url : bool;
  amplitude_threshold : Q;
  timer_duration : Z }.

(** What the plugin cannot choose about the browser it runs in. *)
Record Browser : Type := {
  (** [Date.now() = timeOrigin + performance.now()] *)
  timeOrigin : Z;
  (** [analyzer.frequencyBinCount] of a fresh analyser node *)
  frequencyBinCount : nat;
  (** whether [MediaRecorder.stop()] on an inactive recorder throws
      [InvalidStateError] (older engines) or returns (current standard) *)
  stop_inactive_throws : bool }.

(** The closures handed to [jsPsych.pluginAPI.setTimeout], one constructor
    per call site, with the variables each closure captures. *)
Inductive Callback : Type :=
| HideStimulus                    (* start_event_handler, stimulus_duration *)
| RecordingTimeout                (* start_event_handler, recording_duration *)
| LogAmplitude (watch : nat)      (* logAmplitude of the watch-th promise *)
| Alert (triggerTime : Z).        (* startRecording, timer_duration *)

(** What [display_element] holds. *)
Inductive Display : Type :=
| Untouched
| Shown (stimulus_visible alert_image_opaque done_button : bool)
| PlaybackControls (src : option nat)
| Cleared.

(** [MediaRecorder.state] (the plugin never pauses). *)
Inductive RecordingState : Type := inactive | recording.

(** Tasks the recorder has queued and not yet run. *)
Inductive RecorderTask : Type :=
| StartTask     (* fire [start] *)
| StopTask.     (* deliver the gathered data, then fire [stop] *)

(** [trial_data] as handed to [jsPsych.finishTrial]. *)
Record TrialData : Type := {
  td_rt : option Js.Num;
  td_stimulus : String.string;
  td_response : option Base64Text;
  td_estimated_stimulus_onset : Js.Num;
  (** [None]: the key is not set *)
  td_audio_url : option (option nat) }.

(** The private fields of [HtmlAudioResponsePlugin]; [None] is
    [undefined] ([null] for [rt]).  [recorder] is below, [analyzer] is the
    node whose window [getByteTimeDomainData] reads, [alert_sound] only
    decides what [playAlertSound] plays. *)
Record Plugin : Type := {
  stimulus_start_time : option Z;
  recorder_start_time : option Z;
  audio_url : option nat;
  response : option Base64Text;
  load_resolver : option nat;
  rt : option Js.Num;
  recorded_data_chunks : list Blob;
  dataArray : list byte;
  bufferLength : nat;
  startTime : option Z;
  timeout : option Z }.

(** The microphone recorder shared through [pluginAPI]. *)
Record MediaRecorder : Type := {
  state : RecordingState;
  tasks : list RecorderTask;
  (** the three handlers of [setupRecordingEvents] are attached *)
  listening : bool }.

(** The rest of the page. *)
Record Page : Type := {
  (** [performance.now()] *)
  now : Z;
  (** the time-domain window the analyser would return now *)
  window : list byte;
  (** Modelled from the spec: [jsPsych.pluginAPI.setTimeout] and
      [clearAllTimeouts] are not among the source files.  They are the
      cancellable timers of the spec (4.3 and 5): a registered callback,
      kept with its due time, runs once when due unless a
      [clearAllTimeouts] came first. *)
  timeout_handlers : list (Z * Callback);
  (** [FileReader]s between [readAsDataURL] and their [load] event *)
  readers : list Blob;
  (** object URLs created and not revoked *)
  object_urls : list (nat * Blob);
  url_counter : nat;
  display : Display;
  (** [ResizeObserver]s that still observe [display_element] *)
  observers : nat }.

(** Promises and what the trial has let out. *)
Record Outcome : Type := {
  (** promises made by [stopRecording]; the [n]-th has identity [n] *)
  stop_promises : nat;
  (** those that are resolved *)
  stop_resolved : list nat;
  (** promises made by [logAmplitudeUntilThresholdReached] *)
  watches : nat;
  (** fulfilled watches with the [triggerTime] their reaction took *)
  onsets : list (nat * Z);
  (** rejected watches (['Timeout reached']) *)
  timed_out : list nat;
  (** runs of the alert callback: [triggerTime] and the time of the run *)
  alerts : list (Z * Z);
  (** the argument of [jsPsych.finishTrial] *)
  finished : option TrialData }.

Record State : Type := {
  this : Plugin;
  recorder : MediaRecorder;
  page : Page;
  out : Outcome }.

(** *** Field updates *)

Definition on_this (f : Plugin -> Plugin) (s : State) : State :=
  {| this := f (this s); recorder := recorder s; page := page s; out := out s |}.

Definition set_stimulus_start_time (v : option Z) : State -> State :=
  on_this (fun x => {| stimulus_start_time := v;
                recorder_start_time := recorder_start_time x; audio_url := audio_url x;
                response := response x; load_resolver := load_resolver x; rt := rt x;
                recorded_data_chunks := recorded_data_chunks x; dataArray := dataArray x;
                bufferLength := bufferLength x; startTime := startTime x;
                timeout := timeout x |}).

Definition set_recorder_start_time (v : option Z) : State -> State :=
  on_this (fun x => {| stimulus_start_time := stimulus_start_time x;
                recorder_start_time := v; audio_url := audio_url x; response := response x;
                load_resolver := load_resolver x; rt := rt x;
                recorded_data_chunks := recorded_data_chunks x; dataArray := dataArray x;
                bufferLength := bufferLength x; startTime := startTime x;
                timeout := timeout x |}).

Definition set_audio_url (v : option nat) : State -> State :=
  on_this (fun x => {| stimulus_start_time := stimulus_start_time x;
                recorder_start_time := recorder_start_time x; audio_url := v;
                response := response x; load_resolver := load_resolver x; rt := rt x;
                recorded_data_chunks := recorded_data_chunks x; dataArray := dataArray x;
                bufferLength := bufferLength x; startTime := startTime x;
                timeout := timeout x |}).

Definition set_response (v : option Base64Text) : State -> State :=
  on_this (fun x => {| stimulus_start_time := stimulus_start_time x;
                recorder_start_time := recorder_start_time x; audio_url := audio_url x;
                response := v; load_resolver := load_resolver x; rt := rt x;
                recorded_data_chunks := recorded_data_chunks x; dataArray := dataArray x;
                bufferLength := bufferLength x; startTime := startTime x;
                timeout := timeout x |}).

Definition set_load_resolver (v : option nat) : State -> State :=
  on_this (fun x => {| stimulus_start_time := stimulus_start_time x;
                recorder_start_time := recorder_start_time x; audio_url := audio_url x;
                response := response x; load_resolver := v; rt := rt x;
                recorded_data_chunks := recorded_data_chunks x; dataArray := dataArray x;
                bufferLength := bufferLength x; startTime := startTime x;
                timeout := timeout x |}).

Definition set_rt (v : option Js.Num) : State -> State :=
  on_this (fun x => {| stimulus_start_time := stimulus_start_time x;
                recorder_start_time := recorder_start_time x; audio_url := audio_url x;
                response := response x; load_resolver := load_resolver x; rt := v;
                recorded_data_chunks := recorded_data_chunks x; dataArray := dataArray x;
                bufferLength := bufferLength x; startTime := startTime x;
                timeout := timeout x |}).

Definition set_recorded_data_chunks (v : list Blob) : State -> State :=
  on_this (fun x => {| stimulus_start_time := stimulus_start_time x;
                recorder_start_time := recorder_start_time x; audio_url := audio_url x;
                response := response x; load_resolver := load_resolver x; rt := rt x;
                recorded_data_chunks := v; dataArray := dataArray x;
                bufferLength := bufferLength x; startTime := startTime x;
                timeout := timeout x |}).

Definition set_dataArray (v : list byte) : State -> State :=
  on_this (fun x => {| stimulus_start_time := stimulus_start_time x;
                recorder_start_time := recorder_start_time x; audio_url := audio_url x;
                response := response x; load_resolver := load_resolver x; rt := rt x;
                recorded_data_chunks := recorded_data_chunks x; dataArray := v;
                bufferLength := bufferLength x; startTime := startTime x;
                timeout := timeout x |}).

Definition set_bufferLength (v : nat) : State -> State :=
  on_this (fun x => {| stimulus_start_time := stimulus_start_time x;
                recorder_start_time := recorder_start_time x; audio_url := audio_url x;
                response := response x; load_resolver := load_resolver x; rt := rt x;
                recorded_data_chunks := recorded_data_chunks x; dataArray := dataArray x;
                bufferLength := v; startTime := startTime x; timeout := timeout x |}).

Definition set_startTime (v : option Z) : State -> State :=
  on_this (fun x => {| stimulus_start_time := stimulus_start_time x;
                recorder_start_time := recorder_start_time x; audio_url := audio_url x;
                response := response x; load_resolver := load_resolver x; rt := rt x;
                recorded_data_chunks := recorded_data_chunks x; dataArray := dataArray x;
                bufferLength := bufferLength x; startTime := v; timeout := timeout x |}).

Definition on_recorder (f : MediaRecorder -> MediaRecorder) (s : State) : State :=
  {| this := this s; recorder := f (recorder s); page := page s; out := out s |}.

Definition set_state (v : RecordingState) : State -> State :=
  on_recorder (fun x => {| state := v; tasks := tasks x;
                listening := listening x |}).

Definition set_tasks (v : list RecorderTask) : State -> State :=
  on_recorder (fun x => {| state := state x; tasks := v;
                listening := listening x |}).

Definition set_listening (v : bool) : State -> State :=
  on_recorder (fun x => {| state := state x; tasks := tasks x;
                listening := v |}).

Definition on_page (f : Page -> Page) (s : State) : State :=
  {| this := this s; recorder := recorder s; page := f (page s); out := out s |}.

Definition set_now (v : Z) : State -> State :=
  on_page (fun x => {| now := v; window := window x;
                timeout_handlers := timeout_handlers x; readers := readers x;
                object_urls := object_urls x; url_counter := url_counter x;
                display := display x; observers := observers x |}).

Definition set_window (v : list byte) : State -> State :=
  on_page (fun x => {| now := now x; window := v;
                timeout_handlers := timeout_handlers x; readers := readers x;
                object_urls := object_urls x; url_counter := url_counter x;
                display := display x; observers := observers x |}).

Definition set_timeout_handlers (v : list (Z * Callback)) : State -> State :=
  on_page (fun x => {| now := now x; window := window x;
                timeout_handlers := v; readers := readers x; object_urls := object_urls x;
                url_counter := url_counter x; display := display x;
                observers := observers x |}).

Definition set_readers (v : list Blob) : State -> State :=
  on_page (fun x => {| now := now x; window := window x;
                timeout_handlers := timeout_handlers x; readers := v;
                object_urls := object_urls x; url_counter := url_counter x;
                display := display x; observers := observers x |}).

Definition set_object_urls (v : list (nat * Blob)) : State -> State :=
  on_page (fun x => {| now := now x; window := window x;
                timeout_handlers := timeout_handlers x; readers := readers x;
                object_urls := v; url_counter := url_counter x; display := display x;
                observers := observers x |}).

Definition set_url_counter (v : nat) : State -> State :=
  on_page (fun x => {| now := now x; window := window x;
                timeout_handlers := timeout_handlers x; readers := readers x;
                object_urls := object_urls x; url_counter := v; display := display x;
                observers := observers x |}).

Definition set_display (v : Display) : State -> State :=
  on_page (fun x => {| now := now x; window := window x;
                timeout_handlers := timeout_handlers x; readers := readers x;
                object_urls := object_urls x; url_counter := url_counter x; display := v;
                observers := observers x |}).

Definition set_observers (v : nat) : State -> State :=
  on_page (fun x => {| now := now x; window := window x;
                timeout_handlers := timeout_handlers x; readers := readers x;
                object_urls := object_urls x; url_counter := url_counter x;
                display := display x; observers := v |}).

Definition on_out (f : Outcome -> Outcome) (s : State) : State :=
  {| this := this s; recorder := recorder s; page := page s; out := f (out s) |}.

Definition set_stop_promises (v : nat) : State -> State :=
  on_out (fun x => {| stop_promises := v; stop_resolved := stop_resolved x;
                watches := watches x; onsets := onsets x; timed_out := timed_out x;
                alerts := alerts x; finished := finished x |}).

Definition set_stop_resolved (v : list nat) : State -> State :=
  on_out (fun x => {| stop_promises := stop_promises x; stop_resolved := v;
                watches := watches x; onsets := onsets x; timed_out := timed_out x;
                alerts := alerts x; finished := finished x |}).

Definition set_watches (v : nat) : State -> State :=
  on_out (fun x => {| stop_promises := stop_promises x;
                stop_resolved := stop_resolved x; watches := v; onsets := onsets x;
                timed_out := timed_out x; alerts := alerts x; finished := finished x |}).

Definition set_onsets (v : list (nat * Z)) : State -> State :=
  on_out (fun x => {| stop_promises := stop_promises x;
                stop_resolved := stop_resolved x; watches := watches x; onsets := v;
                timed_out := timed_out x; alerts := alerts x; finished := finished x |}).

Definition set_timed_out (v : list nat) : State -> State :=
  on_out (fun x => {| stop_promises := stop_promises x;
                stop_resolved := stop_resolved x; watches := watches x; onsets := onsets x;
                timed_out := v; alerts := alerts x; finished := finished x |}).

Definition set_alerts (v : list (Z * Z)) : State -> State :=
  on_out (fun x => {| stop_promises := stop_promises x;
                stop_resolved := stop_resolved x; watches := watches x; onsets := onsets x;
                timed_out := timed_out x; alerts := v; finished := finished x |}).

Definition set_finished (v : option TrialData) : State -> State :=
  on_out (fun x => {| stop_promises := stop_promises x;
                stop_resolved := stop_resolved x; watches := watches x; onsets := onsets x;
                timed_out := timed_out x; alerts := alerts x; finished := v |}).


(** *** List helpers *)

(** The list without its [i]-th element. *)
Definition remove_nth {A : Type} (i : nat) (l : list A) : list A :=
  firstn i l ++ skipn (S i) l.

(** Whether a registered callback is a poll of watch [w], and how many
    polls of [w] are registered. *)
Definition is_poll (w : nat) (c : Callback) : bool :=
  match c with
  | LogAmplitude w' => Nat.eqb w' w
  | _ => false
  end.

Definition polls (w : nat) (s : State) : nat :=
  List.length
    (filter (fun h => is_poll w (snd h)) (timeout_handlers (page s))).

(** *** The handlers *)

Section Handlers.

Variable trial : Trial.
Variable browser : Browser.

(** Modelled from the spec: [jsPsych.pluginAPI.setTimeout(callback, delay)]
    registers the callback to run once, [delay] ms from now (a negative
    delay counts as none). *)
Definition setTimeout (callback : Callback) (delay : Z) (s : State) : State :=
  set_timeout_handlers
    (timeout_handlers (page s) ++ [(now (page s) + Z.max 0 delay, callback)]) s.

(** Modelled from the spec: [jsPsych.pluginAPI.clearAllTimeouts()] cancels
    every registered callback that has not run. *)
Definition clearAllTimeouts (s : State) : State :=
  set_timeout_handlers [] s.

(** [URL.revokeObjectURL(url)] *)
Definition revokeObjectURL (url : option nat) (s : State) : State :=
  match url with
  | Some u =>
      set_object_urls
        (filter (fun e => negb (Nat.eqb (fst e) u)) (object_urls (page s))) s
  | None => s
  end.

(** [showDisplay]: a fresh [ResizeObserver] starts to observe
    [display_element], then the markup is replaced. *)
Definition showDisplay (s : State) : State :=
  set_display (Shown true false (show_done_button trial))
    (set_observers (S (observers (page s))) s).

(** The [ResizeObserver] callback of [showDisplay]. *)
Definition resize_callback (s : State) : State :=
  set_observers (Nat.pred (observers (page s)))
    (set_stimulus_start_time (Some (now (page s))) s).

(** [hideStimulus]: both elements exist exactly while the stimulus markup
    is displayed. *)
Definition hideStimulus (s : State) : State :=
  match display (page s) with
  | Shown _ _ b => set_display (Shown false false b) s
  | _ => s
  end.

(** [showAlertImage] *)
Definition showAlertImage (s : State) : State :=
  match display (page s) with
  | Shown v _ b => set_display (Shown v true b) s
  | _ => s
  end.

(** [showPlaybackControls] *)
Definition showPlaybackControls (s : State) : State :=
  set_display (PlaybackControls (audio_url (this s))) s.

(** [endTrial] *)
Definition endTrial (s : State) : State :=
  let s1 := set_listening false s in
  let s2 := clearAllTimeouts s1 in
  let trial_data := {|
    td_rt := rt (this s2);
    td_stimulus := stimulus trial;
    td_response := response (this s2);
    td_estimated_stimulus_onset :=
      Js.sub (stimulus_start_time (this s2)) (recorder_start_time (this s2));
    td_audio_url :=
      if save_audio_url trial then Some (audio_url (this s2)) else None |} in
  let s3 := if save_audio_url trial then s2
            else revokeObjectURL (audio_url (this s2)) s2 in
  let s4 := set_display Cleared s3 in
  set_finished (Some trial_data) s4.

(** The reaction both callers attach to the promise of [stopRecording]:
    [if (trial.allow_playback) showPlaybackControls else endTrial]. *)
Definition after_stop (s : State) : State :=
  if allow_playback trial then showPlaybackControls s else endTrial s.

(** [this.recorder.stop()]: [None] when the call throws. *)
Definition recorder_stop (s : State) : option State :=
  match state (recorder s) with
  | inactive => if stop_inactive_throws browser then None else Some s
  | recording =>
      Some (set_tasks (tasks (recorder s) ++ [StopTask])
              (set_state inactive s))
  end.

(** [this.stopRecording().then(...)]: stop the recorder, make a promise
    and keep its [resolve] in [load_resolver].  When [stop()] throws the
    calling handler ends there. *)
Definition stopRecording (s : State) : State :=
  match recorder_stop s with
  | None => s
  | Some s1 =>
      set_stop_promises (S (stop_promises (out s1)))
        (set_load_resolver (Some (stop_promises (out s1))) s1)
  end.

(** The click handler of [addButtonEvent]. *)
Definition finish_trial_click (s : State) : State :=
  let end_time := now (page s) in
  stopRecording
    (set_rt (Some (Js.sub (Some end_time) (stimulus_start_time (this s)))) s).

(** [data_available_handler] *)
Definition data_available_handler (data : Blob) (s : State) : State :=
  if (0 <? List.length data)%nat
  then set_recorded_data_chunks (recorded_data_chunks (this s) ++ [data]) s
  else s.

(** [stop_event_handler]: build the blob, make its object URL and start
    reading it. *)
Definition stop_event_handler (s : State) : State :=
  let data := concat (recorded_data_chunks (this s)) in
  let url := url_counter (page s) in
  set_readers (readers (page s) ++ [data])
    (set_audio_url (Some url)
       (set_url_counter (S url)
          (set_object_urls (object_urls (page s) ++ [(url, data)]) s))).

(** The [load] listener of the reader: store the encoding, then call
    [this.load_resolver()].  Calling [undefined] throws; resolving a
    resolved promise does nothing; otherwise the reaction runs. *)
Definition reader_load (data : Blob) (s : State) : State :=
  let s1 := set_response (Some (Base64 data)) s in
  match load_resolver (this s1) with
  | None => s1
  | Some p =>
      if existsb (Nat.eqb p) (stop_resolved (out s1)) then s1
      else after_stop (set_stop_resolved (stop_resolved (out s1) ++ [p]) s1)
  end.

(** The callback of the recording-duration timer. *)
Definition recording_timeout (s : State) : State :=
  match state (recorder s) with
  | inactive => s
  | recording => stopRecording s
  end.

(** [start_event_handler] *)
Definition start_event_handler (timeStamp : Z) (s : State) : State :=
  let s1 := set_recorded_data_chunks [] s in
  let s2 := set_recorder_start_time (Some timeStamp) s1 in
  let s3 := showDisplay s2 in
  let s4 := match stimulus_duration trial with
            | Some d => setTimeout HideStimulus d s3
            | None => s3
            end in
  match recording_duration trial with
  | Some d => setTimeout RecordingTimeout d s4
  | None => s4
  end.

(** Whether the promise of watch [w] is settled. *)
Definition watch_settled (w : nat) (s : State) : bool :=
  existsb (fun e => Nat.eqb (fst e) w) (onsets (out s))
  || existsb (Nat.eqb w) (timed_out (out s)).

(** [resolve('Amplitude threshold reached')] and the reaction of
    [startRecording]: take [triggerTime] and arm the alert timer. *)
Definition resolve_watch (w : nat) (s : State) : State :=
  if watch_settled w s then s
  else
    let triggerTime := now (page s) in
    setTimeout (Alert triggerTime) (timer_duration trial)
      (set_onsets (onsets (out s) ++ [(w, triggerTime)]) s).

(** [reject('Timeout reached')] and the [catch] of [startRecording]. *)
Definition reject_watch (w : nat) (s : State) : State :=
  if watch_settled w s then s
  else set_timed_out (timed_out (out s) ++ [w]) s.

(** [logAmplitude], the body of one poll of watch [w]. *)
Definition logAmplitude (w : nat) (s : State) : State :=
  let s1 := set_dataArray
              (VoiceKey.getByteTimeDomainData (window (page s))
                 (dataArray (this s))) s in
  if VoiceKey.exceeds (dataArray (this s1)) (bufferLength (this s1))
       (amplitude_threshold trial)
  then resolve_watch w s1
  else if Js.gt (Js.sub (Some (timeOrigin browser + now (page s1)))
                        (startTime (this s1)))
                (timeout (this s1))
  then reject_watch w s1
  else setTimeout (LogAmplitude w) 5 s1.

(** [logAmplitudeUntilThresholdReached]: a new promise whose executor
    polls once at once. *)
Definition logAmplitudeUntilThresholdReached (s : State) : State :=
  let w := watches (out s) in
  logAmplitude w (set_watches (S w) s).

(** The callback of the alert timer. *)
Definition alert_callback (triggerTime : Z) (s : State) : State :=
  let s1 := showAlertImage s in
  set_alerts (alerts (out s1) ++ [(triggerTime, now (page s1))]) s1.

(** [startRecording]: a fresh analyser and array, then
    [this.recorder.start()], which throws unless the recorder is
    inactive, then the watch. *)
Definition startRecording (s : State) : State :=
  let s1 := set_bufferLength (frequencyBinCount browser) s in
  let s2 := set_dataArray
              (repeat Byte.x00 (bufferLength (this s1))) s1 in
  match state (recorder s2) with
  | recording => s2
  | inactive =>
      let s3 := set_tasks (tasks (recorder s2) ++ [StartTask])
                  (set_state recording s2) in
      let s4 := set_startTime (Some (now (page s3))) s3 in
      logAmplitudeUntilThresholdReached s4
  end.

(** The click handler of [#record-again]. *)
Definition record_again_click (s : State) : State :=
  startRecording (revokeObjectURL (audio_url (this s)) s).

(** A registered callback runs. *)
Definition run_callback (c : Callback) (s : State) : State :=
  match c with
  | HideStimulus => hideStimulus s
  | RecordingTimeout => recording_timeout s
  | LogAmplitude w => logAmplitude w s
  | Alert triggerTime => alert_callback triggerTime s
  end.

(** The state in which [trial()] returns, called at time [t0] while the
    analyser would return [w]. *)
Definition trial_start (t0 : Z) (w : list byte) : State :=
  startRecording
    {| this := {| stimulus_start_time := None; recorder_start_time := None;
                  audio_url := None; response := None;
                  load_resolver := None; rt := None;
                  recorded_data_chunks := []; dataArray := [];
                  bufferLength := O; startTime := None; timeout := None |};
       recorder := {| state := inactive; tasks := []; listening := true |};
       page := {| now := t0; window := w; timeout_handlers := [];
                  readers := []; object_urls := []; url_counter := O;
                  display := Untouched; observers := O |};
       out := {| stop_promises := O; stop_resolved := []; watches := O;
                 onsets := []; timed_out := []; alerts := [];
                 finished := None |} |}.

(** *** The browser: which task runs next *)

Inductive Event : Type :=
| Elapse (d : Z)                  (* the clock advances *)
| Microphone (w : list byte)      (* the analyser's window changes *)
| RecorderStart (timeStamp : Z)   (* the recorder fires [start] *)
| DataAvailable (data : Blob)     (* the recorder fires [dataavailable] *)
| RecorderStop                    (* the recorder fires [stop] *)
| ReaderLoad (i : nat)            (* the i-th pending reader fires [load] *)
| Resize                          (* a resize observer reports *)
| ClickDone                       (* click on [#finish-trial] *)
| ClickRecordAgain                (* click on [#record-again] *)
| ClickContinue                   (* click on [#continue] *)
| TimerFires (i : nat).           (* the i-th registered callback runs *)

(** What the browser may do in state [s]: the clock does not go back, the
    recorder runs its tasks in order and delivers data only while it
    gathers, an event carries a time stamp that is not in the future,
    a click needs its button, a timer does not run before it is due. *)
Definition enabled (s : State) (e : Event) : bool :=
  match e with
  | Elapse d => 0 <=? d
  | Microphone _ => true
  | RecorderStart timeStamp =>
      match tasks (recorder s) with
      | StartTask :: _ => timeStamp <=? now (page s)
      | _ => false
      end
  | DataAvailable _ =>
      match tasks (recorder s) with
      | [] => match state (recorder s) with
              | recording => true
              | inactive => false
              end
      | StopTask :: _ => true
      | StartTask :: _ => false
      end
  | RecorderStop =>
      match tasks (recorder s) with
      | StopTask :: _ => true
      | _ => false
      end
  | ReaderLoad i => (i <? List.length (readers (page s)))%nat
  | Resize => (0 <? observers (page s))%nat
  | ClickDone =>
      match display (page s) with
      | Shown _ _ true => true
      | _ => false
      end
  | ClickRecordAgain | ClickContinue =>
      match display (page s) with
      | PlaybackControls _ => true
      | _ => false
      end
  | TimerFires i =>
      match nth_error (timeout_handlers (page s)) i with
      | Some (due, _) => due <=? now (page s)
      | None => false
      end
  end.

(** The task runs to completion. *)
Definition step (s : State) (e : Event) : State :=
  match e with
  | Elapse d => set_now (now (page s) + d) s
  | Microphone w => set_window w s
  | RecorderStart timeStamp =>
      let s1 := set_tasks (tl (tasks (recorder s))) s in
      if listening (recorder s1) then start_event_handler timeStamp s1
      else s1
  | DataAvailable data =>
      if listening (recorder s) then data_available_handler data s else s
  | RecorderStop =>
      let s1 := set_tasks (tl (tasks (recorder s))) s in
      if listening (recorder s1) then stop_event_handler s1 else s1
  | ReaderLoad i =>
      match nth_error (readers (page s)) i with
      | Some data =>
          reader_load data
            (set_readers (remove_nth i (readers (page s))) s)
      | None => s
      end
  | Resize => resize_callback s
  | ClickDone => finish_trial_click s
  | ClickRecordAgain => record_again_click s
  | ClickContinue => endTrial s
  | TimerFires i =>
      match nth_error (timeout_handlers (page s)) i with
      | Some (_, c) =>
          run_callback c
            (set_timeout_handlers
               (remove_nth i (timeout_handlers (page s))) s)
      | None => s
      end
  end.

(** A run of the page: [None] when the browser could not have done that. *)
Fixpoint run (s : State) (es : list Event) : option State :=
  match es with
  | [] => Some s
  | e :: es' => if enabled s e then run (step s e) es' else None
  end.

(** The fragments a run delivers, in order, and those of them that
    [data_available_handler] keeps. *)
Definition fragments (es : list Event) : list Blob :=
  flat_map (fun e => match e with
                     | DataAvailable data => [data]
                     | _ => []
                     end) es.

Definition kept (fs : list Blob) : list Blob :=
  filter (fun data => (0 <? List.length data)%nat) fs.

Definition is_start (e : Event) : bool :=
  match e with
  | RecorderStart _ => true
  | _ => false
  end.


End Handlers.

(** *** Invariants of the watches *)

(** Watch [w] has at most one poll registered, none once it is settled,
    and a watch that does not exist yet has no poll and is not settled. *)
Definition watch_ok (s : State) (w : nat) : Prop :=
  (polls w s <= 1)%nat /\
  (watch_settled w s = true -> polls w s = O) /\
  ((watches (out s) <= w)%nat ->
   polls w s = O /\ watch_settled w s = false).

Definition watch_inv (s : State) : Prop := forall w, watch_ok s w.

Definition bump (b : bool) : nat := if b then 1%nat else 0%nat.

(** *** Time stamps of the display *)

(** The capture start [r] is recorded and is not in the future. *)
Definition started (r : Z) (s : State) : Prop :=
  recorder_start_time (this s) = Some r /\ r <= now (page s).

(** Moreover the layout has been confirmed at or after [r]. *)
Definition confirmed (r : Z) (s : State) : Prop :=
  started r s /\
  exists v, stimulus_start_time (this s) = Some v /\ r <= v.

(** *** The result of a finished trial *)

(** The result embeds an encoded payload, and holds an object URL exactly
    when [save_audio_url] is set. *)
Definition result_ok (trial : Trial) (d : TrialData) : Prop :=
  (exists b, td_response d = Some (Base64 b)) /\
  (if save_audio_url trial
   then exists u, td_audio_url d = Some (Some u)
   else td_audio_url d = None).

(** While the playback controls are displayed there is an encoded response
    and an object URL; a blob is read only after its URL was made; a
    finished trial has a result as above. *)
Definition payload_inv (trial : Trial) (s : State) : Prop :=
  (forall src, display (page s) = PlaybackControls src ->
               (exists b, response (this s) = Some (Base64 b)) /\
               (exists u, audio_url (this s) = Some u)) /\
  (readers (page s) <> [] -> exists u, audio_url (this s) = Some u) /\
  (forall d, finished (out s) = Some d -> result_ok trial d).

(** *** Two claims as the specification words them *)

(** "With persistence off the result holds only the transient reference
    and not the embedded payload; with persistence on the encoded payload
    is embedded." *)
Definition persist_flag_claim (trial : Trial) (browser : Browser) : Prop :=
  forall t0 w0 es s d,
    run trial browser (trial_start trial browser t0 w0) es = Some s ->
    finished (out s) = Some d ->
    (save_audio_url trial = false ->
     td_response d = None /\ td_audio_url d <> None) /\
    (save_audio_url trial = true -> td_response d <> None).

(** "The estimated_stimulus_onset value emitted in the trial data is
    always non-negative." *)
Definition onset_always_nonneg (trial : Trial) (browser : Browser) : Prop :=
  forall t0 w0 es s d,
    run trial browser (trial_start trial browser t0 w0) es = Some s ->
    finished (out s) = Some d ->
    exists v, td_estimated_stimulus_onset d = Js.Number v /\ 0 <= v.

(** *** Where a blob being read comes from *)


End AudioResponse.

(** ** Concrete trials of the recording plugin *)

Module Scenario.

Import AudioResponse.

(** A trial with the default threshold (0.1) and alert delay (350 ms). *)
Definition config (sd rd : option Z) (playback save : bool) : Trial :=
  {| stimulus := String.EmptyString;
     stimulus_duration := sd;
     recording_duration := rd;
     show_done_button := true;
     allow_playback := playback;
     save_audio_url := save;
     amplitude_threshold := (1 # 10)%Q;
     timer_duration := 350 |}.

(** A browser whose analyser has four bins (to keep windows short). *)
Definition chrome : Browser :=
  {| timeOrigin := 1700000000000;
     frequencyBinCount := 4%nat;
     stop_inactive_throws := false |}.

(** A window of amplitude 6/128 (below 0.1) and one of amplitude 1/2. *)
Definition quiet : list byte := [x86; x7a; x86; x7a].
Definition loud : list byte := [xc0; x40; xc0; x40].

(** [n] rounds of: 5 ms pass, the [i]-th registered callback runs. *)
Definition polls_5ms (i n : nat) : list Event :=
  concat (repeat [Elapse 5; TimerFires i] n).

(** Silence for 400 ms, polled every 5 ms; no other timer. *)
Definition silent_trial : Trial := config None None false false.
Definition silence_400ms : list Event := RecorderStart 0 :: polls_5ms 0 80.

(** The voice rises at 100 ms; the poll that is due then is about to run. *)
Definition voice_at_100ms : list Event :=
  RecorderStart 0 :: polls_5ms 0 19 ++ [Elapse 5; Microphone loud].

(** Playback review allowed, recording limited to 2 s.  The voice rises at
    100 ms, the participant stops at 200 ms, the recording is encoded and
    the playback controls are shown; 250 ms later the alert timer is due. *)
Definition review_trial : Trial := config None (Some 2000) true false.
Definition stop_before_alert : list Event :=
  RecorderStart 0 :: Elapse 5 :: TimerFires 0 :: polls_5ms 1 18 ++
  [Elapse 5; Microphone loud; TimerFires 1;
   Elapse 100; ClickDone; RecorderStop; ReaderLoad 0].
Definition alert_after_stop : list Event :=
  stop_before_alert ++ [Elapse 250; TimerFires 1].

(** Same trial.  A silent first attempt stopped at 800 ms, a re-record at
    1000 ms, the voice rises at 1005 ms: the polls of both watches run,
    then, 350 ms later, the alert timers. *)
Definition rerecord_then_voice : list Event :=
  RecorderStart 0 :: Elapse 5 :: TimerFires 0 :: polls_5ms 1 159 ++
  [ClickDone; RecorderStop; ReaderLoad 0] ++ polls_5ms 1 40 ++
  [ClickRecordAgain; RecorderStart 1000;
   Elapse 5; Microphone loud; TimerFires 1; TimerFires 1;
   Elapse 350; TimerFires 2; TimerFires 2].

(** Playback review allowed, stimulus hidden after 1 s, recording limited
    to 2 s.  A silent attempt stopped by hand at 800 ms. *)
Definition timed_review_trial : Trial :=
  config (Some 1000) (Some 2000) true false.
Definition manual_stop_at_800ms : list Event :=
  RecorderStart 0 :: Elapse 5 :: TimerFires 0 :: polls_5ms 2 159 ++
  [ClickDone; RecorderStop; ReaderLoad 0].

(** Then every timer runs when due, the participant re-records at 1500 ms,
    and at 2000 ms the recording-duration timer of the first attempt is
    due. *)
Definition stale_timer_at_2000ms : list Event :=
  manual_stop_at_800ms ++ polls_5ms 2 40 ++ [TimerFires 0] ++
  polls_5ms 1 100 ++
  [ClickRecordAgain; RecorderStart 1500;
   Elapse 5; TimerFires 1; TimerFires 1] ++
  concat (repeat [Elapse 5; TimerFires 3; TimerFires 3] 99) ++
  [TimerFires 0].

(** No playback review.  One attempt: three fragments, the second empty,
    delivered when the participant stops at 800 ms. *)
Definition plain_trial : Trial := config None None false false.
Definition three_fragments : list Event :=
  [Elapse 800; ClickDone;
   DataAvailable [x01; x02]; DataAvailable []; DataAvailable [x03]].

(** Playback review, no timers.  A first attempt that records two bytes,
    then a re-record that records one. *)
Definition untimed_review_trial : Trial := config None None true false.
Definition first_attempt : list Event :=
  [RecorderStart 0; Elapse 500; ClickDone; DataAvailable [x01; x02];
   RecorderStop; ReaderLoad 0; Elapse 500; ClickRecordAgain].
Definition second_attempt : list Event :=
  [Elapse 500; ClickDone; DataAvailable [x03]].

(** No playback review, recording limited to 2 s; the page is never laid
    out (a hidden tab), so no resize observer reports and the timers run
    late. *)
Definition timed_trial : Trial := config None (Some 2000) false false.
Definition never_laid_out : list Event :=
  [RecorderStart 0; Elapse 2000; TimerFires 1; RecorderStop; ReaderLoad 0].

(** The same trial laid out 16 ms after the capture started, up to the
    moment the encoded recording is about to arrive. *)
Definition laid_out_then_timeout : list Event :=
  [Elapse 1984; TimerFires 1; RecorderStop].

(** A re-record whose display is not laid out before the participant
    (or a script) has clicked through. *)
Definition rerecord_not_laid_out : list Event :=
  [RecorderStart 0; Elapse 16; Resize; Elapse 484; ClickDone; RecorderStop;
   ReaderLoad 0; Elapse 500; ClickRecordAgain; RecorderStart 1000;
   ClickDone; RecorderStop; ReaderLoad 0; ClickContinue].

End Scenario.

(** ** The image-keyboard-response plugins (typing logger)

    The repository holds two variants of [ImageKeyboardResponsePlugin]: the
    earlier one and the one of the [plugin-image-keyboard-response-logger]
    package.  Their [after_response] handlers differ in the trigger test, in
    the sign of [eventTime], and in resetting the fill style; one function
    with the variant as an argument embeds both.  Drawing on the canvases is
    left out apart from the fill style and the swap of the stimulus. *)

Module ImageKeyboard.

Import String.

Inductive Variant : Type :=
| Earlier     (* the variant without the package path *)
| Logger.     (* packages/plugin-image-keyboard-response-logger *)

Record Trial : Type := {
  trigger_list : list string;
  trigger_end : bool;
  space_allowed : bool;
  correction_delay : Z;
  trial_duration : option Z }.

Inductive FillStyle : Type := default_style | black | green | red.

(** The closures handed to [jsPsych.pluginAPI.setTimeout]. *)
Inductive Callback : Type :=
| EndTrial       (* [end_trial()] after [correction_delay] or [trial_duration] *)
| FillBlack.     (* [ctx.fillStyle = 'black'] after [correction_delay] *)

(** One entry of [responses]. *)
Record Response : Type := {
  key : string;
  response_rt : Z }.

(** The members of [trial_data] that are values; [responses] and [words]
    are the arrays of the trial themselves. *)
Record TrialData : Type := {
  td_wholebuffer : string;
  td_eventTime : option Z }.

(** The variables of [trial()] that its closures share, and the page. *)
Record State : Type := {
  startTime : Z;
  words : list string;
  buffer : string;
  wholebuffer : string;
  responses : list Response;
  triggered : bool;
  eventTime : option Z;
  fillStyle : FillStyle;
  (** [changeImageOnCanvas(trial, canvas, trial.stimulus_post)] was called *)
  stimulus_swapped : bool;
  (** Modelled from the spec: the cancellable timers of
      [jsPsych.pluginAPI], which is not among the source files: due time
      and callback of what [setTimeout] registered and [clearAllTimeouts]
      has not removed. *)
  timeout_handlers : list (Z * Callback);
  (** the keyboard listener is registered *)
  listening : bool;
  now : Z;
  finished : option TrialData }.

(** [s.slice(0, -1)]: the string without its last character. *)
Fixpoint slice_0_m1 (s : string) : string :=
  match s with
  | EmptyString => EmptyString
  | String c EmptyString => EmptyString
  | String c rest => String c (slice_0_m1 rest)
  end.

(** [s.includes(t)]: [t] occurs in [s]. *)
Fixpoint includes (s t : string) : bool :=
  prefix t s ||
  match s with
  | EmptyString => false
  | String _ rest => includes rest t
  end.

Section Handlers.

Variable variant : Variant.
Variable trial : Trial.

Definition setTimeout (c : Callback) (delay : Z) (s : State) : State :=
  {| startTime := startTime s; words := words s; buffer := buffer s;
     wholebuffer := wholebuffer s; responses := responses s;
     triggered := triggered s; eventTime := eventTime s;
     fillStyle := fillStyle s; stimulus_swapped := stimulus_swapped s;
     timeout_handlers :=
       timeout_handlers s ++ [(now s + Z.max 0 delay, c)];
     listening := listening s; now := now s; finished := finished s |}.

Definition set_fillStyle (f : FillStyle) (s : State) : State :=
  {| startTime := startTime s; words := words s; buffer := buffer s;
     wholebuffer := wholebuffer s; responses := responses s;
     triggered := triggered s; eventTime := eventTime s;
     fillStyle := f; stimulus_swapped := stimulus_swapped s;
     timeout_handlers := timeout_handlers s;
     listening := listening s; now := now s; finished := finished s |}.

(** [end_trial]: cancel the timers and the listener, push the buffer,
    hand the data over. *)
Definition end_trial (s : State) : State :=
  {| startTime := startTime s; words := words s ++ [buffer s];
     buffer := buffer s; wholebuffer := wholebuffer s;
     responses := responses s; triggered := triggered s;
     eventTime := eventTime s; fillStyle := fillStyle s;
     stimulus_swapped := stimulus_swapped s;
     timeout_handlers := [];
     listening := false; now := now s;
     finished := Some {| td_wholebuffer := wholebuffer s;
                         td_eventTime := eventTime s |} |}.

(** The [enter] branch at the top of [after_response]. *)
Definition on_enter (s : State) : State :=
  if trigger_end trial then
    if triggered s
    then setTimeout EndTrial (correction_delay trial) (set_fillStyle green s)
    else setTimeout FillBlack (correction_delay trial) (set_fillStyle red s)
  else end_trial s.

(** The value the variant assigns to [eventTime] at the swap:
    [startTime - performance.now()] in the earlier variant,
    [performance.now() - startTime] in the logger. *)
Definition swap_eventTime (s : State) : Z :=
  match variant with
  | Earlier => startTime s - now s
  | Logger => now s - startTime s
  end.

(** The [if / else if] chain on the key. *)
Definition edit_buffers (k : string) (s : State) : State :=
  if (k =? "shift")%string || (k =? "meta")%string || (k =? "enter")%string then s
  else if (k =? "\")%string || (k =? "backspace")%string then
    {| startTime := startTime s; words := words s;
       buffer := slice_0_m1 (buffer s);
       wholebuffer := slice_0_m1 (wholebuffer s);
       responses := responses s; triggered := triggered s;
       eventTime := eventTime s; fillStyle := fillStyle s;
       stimulus_swapped := stimulus_swapped s;
       timeout_handlers := timeout_handlers s;
       listening := listening s; now := now s; finished := finished s |}
  else if (k =? " ")%string then
    if space_allowed trial then
      {| startTime := startTime s; words := words s ++ [buffer s];
         buffer := ""%string;
         wholebuffer := (wholebuffer s ++ " ")%string;
         responses := responses s; triggered := triggered s;
         eventTime := if triggered s then Some (swap_eventTime s)
                      else eventTime s;
         fillStyle := fillStyle s;
         stimulus_swapped := triggered s || stimulus_swapped s;
         timeout_handlers := timeout_handlers s;
         listening := listening s; now := now s; finished := finished s |}
    else
      {| startTime := startTime s; words := words s;
         buffer := (buffer s ++ " ")%string;
         wholebuffer := (wholebuffer s ++ " ")%string;
         responses := responses s; triggered := triggered s;
         eventTime := eventTime s; fillStyle := fillStyle s;
         stimulus_swapped := stimulus_swapped s;
         timeout_handlers := timeout_handlers s;
         listening := listening s; now := now s; finished := finished s |}
  else
    {| startTime := startTime s; words := words s;
       buffer := (buffer s ++ k)%string;
       wholebuffer := (wholebuffer s ++ k)%string;
       responses := responses s; triggered := triggered s;
       eventTime := eventTime s; fillStyle := fillStyle s;
       stimulus_swapped := stimulus_swapped s;
       timeout_handlers := timeout_handlers s;
       listening := listening s; now := now s; finished := finished s |}.

(** The trigger test after the key is stored:
    [trial.trigger_list.includes(buffer)] in the earlier variant,
    [trial.trigger_list.some(trigger => buffer.includes(trigger))] in the
    logger. *)
Definition trigger_reached (s : State) : bool :=
  match variant with
  | Earlier => existsb (String.eqb (buffer s)) (trigger_list trial)
  | Logger => existsb (includes (buffer s)) (trigger_list trial)
  end.

(** [responses.push({key, rt})], then the trigger test. *)
Definition store_response (k : string) (rt : Z) (s : State) : State :=
  let pushed := responses s ++ [{| key := k; response_rt := rt |}] in
  {| startTime := startTime s; words := words s; buffer := buffer s;
     wholebuffer := wholebuffer s; responses := pushed;
     triggered := if trigger_reached s then true else triggered s;
     eventTime := eventTime s; fillStyle := fillStyle s;
     stimulus_swapped := stimulus_swapped s;
     timeout_handlers := timeout_handlers s;
     listening := listening s; now := now s; finished := finished s |}.

(** [after_response(info)] with [info.key = k]. *)
Definition after_response (k : string) (s : State) : State :=
  let rt := now s - startTime s in
  let s0 := match variant with
            | Earlier => s
            | Logger => set_fillStyle black s
            end in
  let s1 := if (k =? "enter")%string then on_enter s0 else s0 in
  let s2 := edit_buffers k s1 in
  store_response k rt s2.

(** The state in which [trial()] returns, called at time [t0]. *)
Definition trial_start (t0 : Z) : State :=
  let s := {| startTime := t0; words := []; buffer := ""%string;
              wholebuffer := ""%string; responses := []; triggered := false;
              eventTime := None; fillStyle := default_style;
              stimulus_swapped := false; timeout_handlers := [];
              listening := true; now := t0; finished := None |} in
  match trial_duration trial with
  | Some d => setTimeout EndTrial d s
  | None => s
  end.

Definition run_callback (c : Callback) (s : State) : State :=
  match c with
  | EndTrial => end_trial s
  | FillBlack => set_fillStyle black s
  end.

Inductive Event : Type :=
| Elapse (d : Z)
| KeyPress (k : string)
| TimerFires (i : nat).

Definition enabled (s : State) (e : Event) : bool :=
  match e with
  | Elapse d => 0 <=? d
  | KeyPress _ => listening s
  | TimerFires i =>
      match nth_error (timeout_handlers s) i with
      | Some (due, _) => due <=? now s
      | None => false
      end
  end.

Definition step (s : State) (e : Event) : State :=
  match e with
  | Elapse d =>
      {| startTime := startTime s; words := words s; buffer := buffer s;
         wholebuffer := wholebuffer s; responses := responses s;
         triggered := triggered s; eventTime := eventTime s;
         fillStyle := fillStyle s; stimulus_swapped := stimulus_swapped s;
         timeout_handlers := timeout_handlers s;
         listening := listening s; now := now s + d;
         finished := finished s |}
  | KeyPress k => after_response k s
  | TimerFires i =>
      match nth_error (timeout_handlers s) i with
      | Some (_, c) =>
          run_callback c
            {| startTime := startTime s; words := words s;
               buffer := buffer s; wholebuffer := wholebuffer s;
               responses := responses s; triggered := triggered s;
               eventTime := eventTime s; fillStyle := fillStyle s;
               stimulus_swapped := stimulus_swapped s;
               timeout_handlers :=
                 AudioResponse.remove_nth i (timeout_handlers s);
               listening := listening s; now := now s;
               finished := finished s |}
      | None => s
      end
  end.

Fixpoint run (s : State) (es : list Event) : option State :=
  match es with
  | [] => Some s
  | e :: es' => if enabled s e then run (step s e) es' else None
  end.

End Handlers.

(** *** A concrete trial *)

(** One trigger word, ["a"]; the participant types it 100 ms into the
    trial and presses space 100 ms later. *)
Definition typing_trial : Trial :=
  {| trigger_list := ["a"%string];
     trigger_end := false;
     space_allowed := true;
     correction_delay := 750;
     trial_duration := None |}.

Definition trigger_then_space : list Event :=
  [Elapse 100; KeyPress "a"; Elapse 100; KeyPress " "].

End ImageKeyboard.

(** ** Predicates on runs of the recording plugin *)

Module AudioPredicates.

Import AudioResponse.

(** The clicks and the timers that the properties single out. *)
Definition is_done_click (e : Event) : bool :=
  match e with ClickDone => true | _ => false end.

Definition is_record_again (e : Event) : bool :=
  match e with ClickRecordAgain => true | _ => false end.

Definition is_alert (h : Z * Callback) : bool :=
  match snd h with Alert _ => true | _ => false end.

(** How many alert timers are registered. *)
Definition alert_timers (s : State) : nat :=
  List.length (filter is_alert (timeout_handlers (page s))).

Definition is_stop_task (t : RecorderTask) : bool :=
  match t with StopTask => true | StartTask => false end.

(** Readers in flight, stop tasks queued, and the recording itself: what can
    still produce a [load] event. *)
Definition outstanding (s : State) : nat :=
  List.length (readers (page s))
  + List.length (filter is_stop_task (tasks (recorder s)))
  + match state (recorder s) with recording => 1 | inactive => 0 end.

(** Without playback review the controls are never shown, at most one
    thing can still produce a [load], and a trial that has ended holds no
    listener, timer or reader. *)
Definition no_playback_inv (s : State) : Prop :=
  (forall src, display (page s) <> PlaybackControls src) /\
  (outstanding s <= 1)%nat /\
  (finished (out s) <> None ->
   listening (recorder s) = false /\
   timeout_handlers (page s) = [] /\
   display (page s) = Cleared /\
   readers (page s) = []).


(** No response time was taken. *)
Definition no_rt (s : State) : Prop :=
  rt (this s) = None /\
  (forall d, finished (out s) = Some d -> td_rt d = None).

(** The sample array has as many entries as the analyser has bins. *)
Definition array_ok (browser : Browser) (s : State) : Prop :=
  List.length (dataArray (this s)) = bufferLength (this s) /\
  bufferLength (this s) = frequencyBinCount browser.

(** Every armed alert timer is due [timer_duration] after an onset that
    was recorded, every alert shown came that much after its onset, there
    are no more alerts armed and shown than onsets, and no watch has two
    onsets. *)
Definition alert_inv (trial : Trial) (s : State) : Prop :=
  (forall due trig, In (due, Alert trig) (timeout_handlers (page s)) ->
                    due = trig + Z.max 0 (timer_duration trial) /\
                    exists w, In (w, trig) (onsets (out s))) /\
  (forall trig t, In (trig, t) (alerts (out s)) ->
                  trig + Z.max 0 (timer_duration trial) <= t /\
                  exists w, In (w, trig) (onsets (out s))) /\
  (alert_timers s + List.length (alerts (out s))
   <= List.length (onsets (out s)))%nat /\
  NoDup (map fst (onsets (out s))).

(** *** Object URLs *)

Definition is_recording_timeout (h : Z * Callback) : bool :=
  match snd h with RecordingTimeout => true | _ => false end.

(** No recording-duration timer is registered. *)
Definition untimed (s : State) : Prop :=
  forallb (fun h => negb (is_recording_timeout h))
          (timeout_handlers (page s)) = true.

(** Where an attempt stands while the recorder is listened to: waiting for
    the start confirmation, recording, stopping, encoding or encoded, under
    review, or restarting from the review. *)
Definition phase (s : State) : Prop :=
  match display (page s) with
  | Untouched =>
      state (recorder s) = recording /\ tasks (recorder s) = [StartTask] /\
      object_urls (page s) = [] /\ readers (page s) = []
  | Shown _ _ _ =>
      (state (recorder s) = recording /\ tasks (recorder s) = [] /\
       object_urls (page s) = [] /\ readers (page s) = []) \/
      (state (recorder s) = inactive /\ tasks (recorder s) = [StopTask] /\
       object_urls (page s) = [] /\ readers (page s) = []) \/
      (state (recorder s) = inactive /\ tasks (recorder s) = [] /\
       (List.length (readers (page s)) <= 1)%nat)
  | PlaybackControls _ =>
      (state (recorder s) = inactive /\ tasks (recorder s) = [] /\
       readers (page s) = []) \/
      (state (recorder s) = recording /\ tasks (recorder s) = [StartTask] /\
       object_urls (page s) = [] /\ readers (page s) = [])
  | Cleared => False
  end.

(** The two displays are of the same kind. *)
Definition same_kind (d d' : Display) : Prop :=
  match d, d' with
  | Untouched, Untouched => True
  | Shown _ _ _, Shown _ _ _ => True
  | PlaybackControls _, PlaybackControls _ => True
  | Cleared, Cleared => True
  | _, _ => False
  end.

(** [s'] differs from [s] in nothing the recorder, the reader or the
    object URLs depend on. *)
Definition same_recording (s s' : State) : Prop :=
  state (recorder s') = state (recorder s) /\
  tasks (recorder s') = tasks (recorder s) /\
  listening (recorder s') = listening (recorder s) /\
  object_urls (page s') = object_urls (page s) /\
  readers (page s') = readers (page s) /\
  audio_url (this s') = audio_url (this s) /\
  (finished (out s') = None <-> finished (out s) = None) /\
  same_kind (display (page s)) (display (page s')).

(** At most one object URL is live, and it is the one [audio_url] names;
    a trial that has ended without [save_audio_url] has none. *)
Definition url_inv (trial : Trial) (s : State) : Prop :=
  (object_urls (page s) = [] \/
   exists u d, object_urls (page s) = [(u, d)] /\
               audio_url (this s) = Some u) /\
  (finished (out s) <> None ->
   listening (recorder s) = false /\
   (save_audio_url trial = false -> object_urls (page s) = [])) /\
  (listening (recorder s) = true -> phase s).

(** *** More concrete trials *)

(** A trial without timers or playback review whose threshold is [q]. *)
Definition with_threshold (q : Q) : Trial :=
  {| stimulus := String.EmptyString;
     stimulus_duration := None;
     recording_duration := None;
     show_done_button := true;
     allow_playback := false;
     save_audio_url := false;
     amplitude_threshold := q;
     timer_duration := 350 |}.

(** The voice rises at 100 ms and the poll that is due then runs. *)
Definition voice_polled_at_100ms : list Event :=
  Scenario.voice_at_100ms ++ [TimerFires 0].

(** One attempt of three fragments, stopped at 800 ms and encoded. *)
Definition one_attempt : list Event :=
  RecorderStart 0 :: Scenario.three_fragments ++ [RecorderStop; ReaderLoad 0].

(** Two attempts under review without timers, then continue. *)
Definition two_attempts_then_continue : list Event :=
  Scenario.first_attempt ++
  RecorderStart 1000 :: Scenario.second_attempt ++
  [RecorderStop; ReaderLoad 0; ClickContinue].

(** Recording limited to 2 s under review.  The first attempt is stopped
    by hand and re-recorded at once; its recording-duration timer stops
    the second attempt before the recorder has confirmed the start, the
    participant re-records again, and the recorder confirms start, stop
    and start.  The third attempt runs out, and the participant clicks
    continue under the recording of the second. *)
Definition stale_timer_then_continue : list Event :=
  [RecorderStart 0; ClickDone; RecorderStop; ReaderLoad 0;
   ClickRecordAgain; Elapse 2000; TimerFires 1; ClickRecordAgain;
   RecorderStart 2000; RecorderStop; RecorderStart 2000; ReaderLoad 0;
   Elapse 2000; TimerFires 3; RecorderStop; ClickContinue].

End AudioPredicates.

(** ** Predicates on runs of the typing plugins *)

Module TypingPredicates.

Import String ImageKeyboard.



(** The keys a run hands to [after_response], in order. *)
Definition pressed (es : list Event) : list string :=
  flat_map (fun e => match e with KeyPress k => [k] | _ => [] end) es.


(** The sign of [eventTime] in each variant. *)
Definition eventTime_inv (v : Variant) (s : State) : Prop :=
  startTime s <= now s /\
  (forall t, eventTime s = Some t ->
             match v with Logger => 0 <= t | Earlier => t <= 0 end).


(** An end of the trial is registered or has happened only after a
    trigger. *)
Definition gate_inv (s : State) : Prop :=
  ((exists due, In (due, EndTrial) (timeout_handlers s)) \/
   finished s <> None) ->
  triggered s = true.


(** Without [space_allowed] nothing is split into words. *)
Definition nospace_inv (s : State) : Prop :=
  buffer s = wholebuffer s /\
  (finished s = None -> words s = []) /\
  (finished s <> None -> words s = [wholebuffer s]).


(** The event is not a press of enter. *)
Definition no_enter (e : Event) : bool :=
  match e with
  | KeyPress k => negb (k =? "enter")%string
  | _ => true
  end.

(** Only the timer of [trial_duration] is registered, and a trial that has
    ended has outlasted it. *)
Definition deadline_inv (trial : Trial) (t0 : Z) (s : State) : Prop :=
  (forall due c, In (due, c) (timeout_handlers s) ->
                 exists d, trial_duration trial = Some d /\
                           due = t0 + Z.max 0 d) /\
  (finished s <> None ->
   exists d, trial_duration trial = Some d /\ t0 + Z.max 0 d <= now s).


(** A trial that has ended holds no listener and no timer, and its data
    are the text and the [eventTime] of the state. *)
Definition final_inv (s : State) : Prop :=
  (finished s <> None -> listening s = false /\ timeout_handlers s = []) /\
  (forall d, finished s = Some d ->
             td_wholebuffer d = wholebuffer s /\ td_eventTime d = eventTime s).

(** Every registered end of the trial is due [correction_delay] after an
    enter in the log, and a trial that has ended has outlasted one. *)
Definition delay_inv (trial : Trial) (t0 : Z) (s : State) : Prop :=
  startTime s = t0 /\
  (forall due, In (due, EndTrial) (timeout_handlers s) ->
     exists r, In r (responses s) /\ key r = "enter"%string /\
               due = t0 + response_rt r + Z.max 0 (correction_delay trial)) /\
  (finished s <> None ->
     exists r, In r (responses s) /\ key r = "enter"%string /\
               t0 + response_rt r + Z.max 0 (correction_delay trial)
               <= now s).

(** The state before the key is looked at: the logger resets the fill
    style first. *)
Definition before_key (variant : Variant) (s : State) : State :=
  match variant with
  | Earlier => s
  | Logger => set_fillStyle black s
  end.

(** *** More concrete trials *)

(** The trigger word typed, a space, then enter at 300 ms. *)
Definition trigger_space_enter : list Event :=
  trigger_then_space ++ [Elapse 100; KeyPress "enter"].

(** [trigger_end] set: the trigger word, enter at 200 ms, the correction
    delay, the timer. *)
Definition gated_trial : Trial :=
  {| trigger_list := ["a"%string];
     trigger_end := true;
     space_allowed := true;
     correction_delay := 750;
     trial_duration := None |}.

Definition trigger_enter_wait : list Event :=
  [Elapse 100; KeyPress "a"; Elapse 100; KeyPress "enter";
   Elapse 750; TimerFires 0].

(** No spaces allowed: [a], space, [b], enter. *)
Definition nospace_trial : Trial :=
  {| trigger_list := ["a"%string];
     trigger_end := false;
     space_allowed := false;
     correction_delay := 750;
     trial_duration := None |}.

Definition a_space_b_enter : list Event :=
  [KeyPress "a"; KeyPress " "; KeyPress "b"; KeyPress "enter"].

(** Five seconds to type; one key, then the time runs out. *)
Definition timed_typing_trial : Trial :=
  {| trigger_list := ["a"%string];
     trigger_end := false;
     space_allowed := true;
     correction_delay := 750;
     trial_duration := Some 5000 |}.

Definition key_then_deadline : list Event :=
  [Elapse 100; KeyPress "a"; Elapse 4900; TimerFires 0].

End TypingPredicates.

(** ** Drawing the stimulus on the canvas

    [renderImageOnCanvas] and [changeImageOnCanvas] are the same in the two
    variants of the typing plugin.  Each creates an [Image], sets its
    source and computes the size to draw at; the image itself arrives
    later, in a [load] task.  The embedding takes the image as the browser
    presents it at the call and at the [load], and lists what is done to
    the canvas. *)

Module Canvas.

(** JavaScript numbers are IEEE 754 doubles. *)
Local Abbreviation number := PrimFloat.float.

(** An [unsigned long] attribute (not negative, below 2^32) read as a
    number. *)
Definition of_long (n : Z) : number := PrimFloat.of_uint63 (Uint63.of_Z n).

(** [Number.isFinite(x)]; [undefined] is no number. *)
Definition isFinite (x : option number) : bool :=
  match x with
  | Some v => PrimFloat.is_finite v
  | None => false
  end.

(** The parameters the canvas code reads; [None] is [null]. *)
Record Trial : Type := {
  stimulus_height : option number;
  stimulus_width : option number;
  maintain_aspect_ratio : bool }.

(** What the browser shows of an [Image] at one moment: the natural size
    is 0 by 0 until the image is available. *)
Record Image : Type := {
  complete : bool;
  naturalWidth : Z;
  naturalHeight : Z }.

(** What the code does to the canvas, in order.  [SetHeight] and
    [SetWidth] hold the value assigned to [canvas.height] and
    [canvas.width] (the attribute converts it to an integer of its own);
    [ClearRect] is [ctx.clearRect(0, 0, canvas.width, canvas.height)], the
    whole canvas; [DrawImage img w h] is [ctx.drawImage(img, 0, 0, w, h)]. *)
Inductive Op : Type :=
| SetHeight (h : option number)
| SetWidth (w : option number)
| ClearRect
| DrawImage (img : Image) (w h : option number).

(** The variables the closures of one call share; [None] is [undefined]. *)
Record Vars : Type := {
  height : option number;
  width : option number;
  image_drawn : bool;
  ops : list Op }.

(** Assignments to the variables, and an operation on the canvas. *)
Definition set_height (h : option number) (v : Vars) : Vars :=
  {| height := h; width := width v; image_drawn := image_drawn v;
     ops := ops v |}.

Definition set_width (w : option number) (v : Vars) : Vars :=
  {| height := height v; width := w; image_drawn := image_drawn v;
     ops := ops v |}.

Definition set_image_drawn (b : bool) (v : Vars) : Vars :=
  {| height := height v; width := width v; image_drawn := b; ops := ops v |}.

Definition canvas_op (o : Op) (v : Vars) : Vars :=
  {| height := height v; width := width v; image_drawn := image_drawn v;
     ops := ops v ++ [o] |}.

(** The variables of a call that has just begun, on a canvas with the
    operations [before]. *)
Definition fresh (before : list Op) : Vars :=
  {| height := None; width := None; image_drawn := false; ops := before |}.

Section Closures.

Variable trial : Trial.

(** [getHeightWidth], and [updateDimensions] of [changeImageOnCanvas],
    which has the same statements. *)
Definition getHeightWidth (img : Image) (v : Vars) : Vars :=
  let nW := of_long (naturalWidth img) in
  let nH := of_long (naturalHeight img) in
  let v1 :=
    match stimulus_height trial with
    | Some h =>
        let v' := set_height (Some h) v in
        match stimulus_width trial with
        | None =>
            if maintain_aspect_ratio trial
            then set_width (Some (PrimFloat.mul nW (PrimFloat.div h nH))) v'
            else v'
        | Some _ => v'
        end
    | None => set_height (Some nH) v
    end in
  let v2 :=
    match stimulus_width trial with
    | Some w =>
        let v' := set_width (Some w) v1 in
        match stimulus_height trial with
        | None =>
            if maintain_aspect_ratio trial
            then set_height (Some (PrimFloat.mul nH (PrimFloat.div w nW))) v'
            else v'
        | Some _ => v'
        end
    | None =>
        if negb (match stimulus_height trial with
                 | Some _ => maintain_aspect_ratio trial
                 | None => false
                 end)
        then set_width (Some nW) v1
        else v1
    end in
  canvas_op (SetWidth (width v2)) (canvas_op (SetHeight (height v2)) v2).

(** [updateDimensions] *)
Definition updateDimensions := getHeightWidth.

(** [renderImageOnCanvas] up to its return; [img] is the new image as it
    is right after [img.src] was set. *)
Definition renderImageOnCanvas (img : Image) : Vars :=
  let v := getHeightWidth img (fresh []) in
  if complete img && isFinite (width v) && isFinite (height v)
  then set_image_drawn true (canvas_op (DrawImage img (width v) (height v)) v)
  else v.

(** [img.onload] of [renderImageOnCanvas]; [img] is the image as loaded. *)
Definition render_onload (img : Image) (v : Vars) : Vars :=
  if image_drawn v then v
  else
    let v' := getHeightWidth img v in
    canvas_op (DrawImage img (width v') (height v')) v'.

(** [changeImageOnCanvas] on a canvas with the operations [before]. *)
Definition changeImageOnCanvas (before : list Op) (img : Image) : Vars :=
  updateDimensions img (fresh before).

(** [img.onload] of [changeImageOnCanvas]. *)
Definition change_onload (img : Image) (v : Vars) : Vars :=
  canvas_op (DrawImage img (width v) (height v)) (canvas_op ClearRect v).

End Closures.

(** The operation is a [drawImage] call. *)
Definition is_draw (o : Op) : bool :=
  match o with DrawImage _ _ _ => true | _ => false end.

(** The [drawImage] calls among the operations. *)
Definition draws (l : list Op) : list Op := filter is_draw l.

(** The width and height [getHeightWidth] computes for an image. *)
Definition dimensions (trial : Trial) (img : Image)
  : option number * option number :=
  let v := getHeightWidth trial img (fresh []) in (width v, height v).

(** Neither dimension configured. *)
Definition natural_size (trial : Trial) : Prop :=
  stimulus_height trial = None /\ stimulus_width trial = None.

(** *** Concrete images and trials *)

(** An image that is not available yet. *)
Definition pending : Image :=
  {| complete := false; naturalWidth := 0; naturalHeight := 0 |}.

(** The same image once loaded, 400 by 300. *)
Definition photo : Image :=
  {| complete := true; naturalWidth := 400; naturalHeight := 300 |}.

(** An image the browser could not decode. *)
Definition broken : Image :=
  {| complete := true; naturalWidth := 0; naturalHeight := 0 |}.

(** No size configured; a height of 150 with the aspect ratio kept. *)
Definition unsized : Trial :=
  {| stimulus_height := None; stimulus_width := None;
     maintain_aspect_ratio := false |}.

Definition height_150 : Trial :=
  {| stimulus_height := Some (of_long 150); stimulus_width := None;
     maintain_aspect_ratio := true |}.

End Canvas.

(** * Properties *)

(** ** The amplitude test *)

Module VoiceKeyFacts.

Import VoiceKey.




End VoiceKeyFacts.

(** ** The recording plugin *)

Module AudioResponseFacts.

Import AudioResponse.

Ltac unfold_handlers :=
  unfold step, run_callback, finish_trial_click, record_again_click,
    startRecording, logAmplitudeUntilThresholdReached, logAmplitude,
    resolve_watch, reject_watch, alert_callback, start_event_handler,
    recording_timeout, reader_load, after_stop, stop_event_handler,
    data_available_handler, stopRecording, recorder_stop, endTrial,
    showPlaybackControls, showAlertImage, hideStimulus, resize_callback,
    showDisplay, revokeObjectURL, clearAllTimeouts, setTimeout in *.

(** Case analysis on the innermost scrutinee of the goal. *)
Ltac split_case :=
  match goal with
  | |- context [match ?x with _ => _ end] =>
      lazymatch x with
      | context [match _ with _ => _ end] => fail
      | _ => destruct x eqn:?
      end
  end.

Ltac split_cases := repeat (cbn; split_case); cbn.

Section Runs.

Variable trial : Trial.
Variable browser : Browser.

Local Abbreviation step := (step trial browser).
Local Abbreviation run := (run trial browser).
Local Abbreviation trial_start := (trial_start trial browser).

Lemma run_app (s : State) (es1 es2 : list Event) :
  run s (es1 ++ es2) =
  match run s es1 with
  | Some s1 => run s1 es2
  | None => None
  end.
Proof.
  revert s. induction es1 as [|e es1 IH]; intros s; simpl; auto.
  destruct (enabled s e); auto.
Qed.


(** A property that every enabled task preserves holds along a run. *)
Lemma run_invariant (P : State -> Prop) :
  (forall s e, P s -> enabled s e = true -> P (step s e)) ->
  forall es s s', P s -> run s es = Some s' -> P s'.
Proof.
  intros Hstep. induction es as [|e es IH]; intros s s' Hs Hrun; simpl in Hrun.
  - injection Hrun as <-. exact Hs.
  - destruct (enabled s e) eqn:He; [|discriminate].
    eapply IH; [|exact Hrun]. apply Hstep; assumption.
Qed.

(** Nothing assigns [this.timeout]. *)
Lemma step_timeout (s : State) (e : Event) :
  timeout (this (step s e)) = timeout (this s).
Proof.
  destruct e; unfold_handlers; split_cases; congruence.
Qed.

(** *** The watch never times out *)

Lemma trial_start_timeout (t0 : Z) (w : list byte) :
  timeout (this (trial_start t0 w)) = None.
Proof.
  unfold AudioResponse.trial_start. unfold_handlers. split_cases; congruence.
Qed.


Lemma step_timed_out (s : State) (e : Event) :
  timeout (this s) = None ->
  timed_out (out (step s e)) = timed_out (out s).
Proof.
  intros H. destruct e; unfold_handlers; split_cases; congruence.
Qed.

Lemma trial_start_timed_out (t0 : Z) (w : list byte) :
  timed_out (out (trial_start t0 w)) = [].
Proof.
  unfold AudioResponse.trial_start. unfold_handlers. split_cases; congruence.
Qed.

(** C2 (the code departs from it): however long the amplitude stays at or
    below the threshold, and whatever the browser does meanwhile, no watch
    is ever rejected: the deadline test compares with [this.timeout],
    which nothing assigns, and a comparison with [undefined] is false. *)
Theorem watcher_never_times_out
        (t0 : Z) (w : list byte) (es : list Event) (s : State) :
  run (trial_start t0 w) es = Some s ->
  timed_out (out s) = [].
Proof.
  intros Hrun.
  apply (run_invariant
           (fun s => timeout (this s) = None /\ timed_out (out s) = []))
    with (es := es) (s := trial_start t0 w); auto.
  - intros s0 e [Hto Hrej] _. split.
    + rewrite step_timeout. exact Hto.
    + rewrite step_timed_out; assumption.
  - split; [apply trial_start_timeout | apply trial_start_timed_out].
Qed.

(** *** Polls and settled watches *)

Lemma filter_remove_nth_le {A} (f : A -> bool) (i : nat) (l : list A) :
  (List.length (filter f (remove_nth i l)) <= List.length (filter f l))%nat.
Proof.
  unfold remove_nth.
  rewrite <- (firstn_skipn i l) at 3.
  rewrite !filter_app, !length_app.
  apply Nat.add_le_mono_l.
  destruct (skipn i l) as [|a r] eqn:E.
  - assert (skipn (S i) l = []) as ->; [|simpl; lia].
    apply skipn_all2. apply (f_equal (@List.length A)) in E.
    rewrite length_skipn in E. simpl in E. lia.
  - assert (skipn (S i) l = r) as ->.
    { change (S i) with (1 + i)%nat. rewrite <- skipn_skipn, E. reflexivity. }
    simpl. destruct (f a); simpl; lia.
Qed.

Lemma filter_remove_nth_hit {A} (f : A -> bool) (i : nat) (l : list A) (a : A) :
  nth_error l i = Some a -> f a = true ->
  List.length (filter f l) = S (List.length (filter f (remove_nth i l))).
Proof.
  intros Hn Hf. unfold remove_nth.
  rewrite <- (firstn_skipn i l) at 1.
  rewrite !filter_app, !length_app.
  assert (skipn i l = a :: skipn (S i) l) as ->.
  { revert i Hn. induction l as [|b l IH]; intros [|i] Hn; simpl in *; try discriminate.
    - congruence.
    - apply IH. exact Hn. }
  simpl. rewrite Hf. simpl. lia.
Qed.

Lemma filter_remove_nth_miss {A} (f : A -> bool) (i : nat) (l : list A) (a : A) :
  nth_error l i = Some a -> f a = false ->
  List.length (filter f (remove_nth i l)) = List.length (filter f l).
Proof.
  intros Hn Hf. unfold remove_nth.
  rewrite <- (firstn_skipn i l) at 3.
  rewrite !filter_app, !length_app.
  assert (skipn i l = a :: skipn (S i) l) as ->.
  { revert i Hn. induction l as [|b l IH]; intros [|i] Hn; simpl in *; try discriminate.
    - congruence.
    - apply IH. exact Hn. }
  simpl. rewrite Hf. reflexivity.
Qed.

(** frame *)
Lemma watch_inv_frame (s s' : State) :
  (forall w, polls w s' <= polls w s)%nat ->
  (forall w, watch_settled w s' = watch_settled w s) ->
  watches (out s') = watches (out s) ->
  watch_inv s -> watch_inv s'.
Proof.
  intros Hp Hs Hw Hinv w. destruct (Hinv w) as (H1 & H2 & H3).
  unfold watch_ok. specialize (Hp w). rewrite Hs, Hw.
  repeat split.
  - lia.
  - intros H. apply H2 in H. lia.
  - apply H3 in H. lia.
  - apply H3 in H. tauto.
Qed.



Lemma polls_setTimeout (w : nat) (c : Callback) (d : Z) (s : State) :
  polls w (setTimeout c d s) = (polls w s + bump (is_poll w c))%nat.
Proof.
  unfold polls, setTimeout. cbn. rewrite filter_app, length_app. cbn.
  destruct (is_poll w c); reflexivity.
Qed.

(** What one poll of watch [w] does to the registered polls and to the
    settled watches: it either registers the next poll of [w] or settles
    [w]. *)
Lemma logAmplitude_effect (w : nat) (s : State) :
  exists again : bool,
    (forall w', polls w' (logAmplitude trial browser w s)
                = (polls w' s + bump (again && Nat.eqb w w'))%nat) /\
    (forall w', watch_settled w' (logAmplitude trial browser w s)
                = watch_settled w' s
                  || (negb again && Nat.eqb w w')) /\
    watches (out (logAmplitude trial browser w s)) = watches (out s).
Proof.
  assert (Hor : forall a b c : bool, a || (b || false) || c = a || c || b).
  { intros [] [] []; reflexivity. }
  assert (Hsame : forall w', watch_settled w s = true ->
                             watch_settled w' s
                             = watch_settled w' s || Nat.eqb w w').
  { intros w' H. destruct (Nat.eqb w w') eqn:E.
    - apply Nat.eqb_eq in E. subst w'. rewrite H. reflexivity.
    - rewrite orb_false_r. reflexivity. }
  unfold logAmplitude, resolve_watch, reject_watch.
  set (s1 := set_dataArray _ s).
  assert (Hp1 : forall w', polls w' s1 = polls w' s) by reflexivity.
  assert (Hs1 : forall w', watch_settled w' s1 = watch_settled w' s)
    by reflexivity.
  destruct (VoiceKey.exceeds _ _ _); [|destruct (Js.gt _ _)].
  - exists false. rewrite Hs1.
    destruct (watch_settled w s) eqn:Hw; (split; [|split]);
      try intros w'; rewrite ?polls_setTimeout, ?Hp1, ?Hs1;
      try reflexivity; cbn [andb negb bump is_poll]; try lia.
    + apply Hsame. reflexivity.
    + unfold watch_settled. cbn. rewrite existsb_app. cbn.
      rewrite (Nat.eqb_sym w w'). apply Hor.
  - exists false. rewrite Hs1.
    destruct (watch_settled w s) eqn:Hw; (split; [|split]);
      try intros w'; rewrite ?Hp1, ?Hs1;
      try reflexivity; cbn [andb negb bump is_poll]; try lia.
    + apply Hsame. reflexivity.
    + unfold polls. cbn. lia.
    + unfold watch_settled. cbn. rewrite existsb_app. cbn.
      rewrite (Nat.eqb_sym w w'), orb_false_r, orb_assoc. reflexivity.
  - exists true. (split; [|split]); try intros w';
      rewrite ?polls_setTimeout, ?Hp1; try reflexivity.
    cbn [negb andb]. rewrite orb_false_r. reflexivity.
Qed.

Lemma logAmplitude_watch_inv (s : State) (w : nat) :
  (forall w', w' <> w -> watch_ok s w') ->
  polls w s = O -> watch_settled w s = false -> (w < watches (out s))%nat ->
  watch_inv (logAmplitude trial browser w s).
Proof.
  intros Hother Hp Hs Hw.
  destruct (logAmplitude_effect w s) as (again & Hpolls & Hsettled & Hwatches).
  intros w'. unfold watch_ok. rewrite Hpolls, Hsettled, Hwatches.
  destruct (Nat.eqb w w') eqn:E.
  - apply Nat.eqb_eq in E. subst w'. rewrite Hp, Hs.
    destruct again; cbn; repeat split; intros; try lia; try discriminate.
  - apply Nat.eqb_neq in E.
    destruct (Hother w') as (H1 & H2 & H3); [congruence|].
    rewrite !andb_false_r, orb_false_r. cbn. rewrite !Nat.add_0_r.
    repeat split; auto; apply H3; auto.
Qed.

Lemma startRecording_watch_inv (s : State) :
  watch_inv s -> watch_inv (startRecording trial browser s).
Proof.
  intros Hinv. unfold startRecording. cbn.
  destruct (state (recorder s)) eqn:Hst.
  - unfold logAmplitudeUntilThresholdReached. cbn.
    apply logAmplitude_watch_inv; cbn.
    + intros w' Hne. destruct (Hinv w') as (H1 & H2 & H3).
      unfold watch_ok, polls, watch_settled in *; cbn.
      repeat split; auto; intros; apply H3; lia.
    + destruct (Hinv (watches (out s))) as (_ & _ & H3).
      apply H3. lia.
    + destruct (Hinv (watches (out s))) as (_ & _ & H3).
      apply H3. lia.
    + lia.
  - apply (watch_inv_frame s); auto.
Qed.

Lemma step_watch_inv (s : State) (e : Event) :
  watch_inv s -> enabled s e = true -> watch_inv (step s e).
Proof.
  intros Hinv He.
  destruct e.
  - apply (watch_inv_frame s); auto.
  - apply (watch_inv_frame s); auto.
  - apply (watch_inv_frame s); auto; unfold_handlers; split_cases; auto;
      intros w; unfold polls; cbn; rewrite ?filter_app, ?length_app; cbn; lia.
  - apply (watch_inv_frame s); auto; unfold_handlers; split_cases; auto.
  - apply (watch_inv_frame s); auto; unfold_handlers; split_cases; auto.
  - apply (watch_inv_frame s); auto; unfold_handlers; split_cases; auto;
      intros w; unfold polls; cbn; lia.
  - apply (watch_inv_frame s); auto.
  - apply (watch_inv_frame s); auto; unfold_handlers; split_cases; auto.
  - unfold AudioResponse.step, record_again_click.
    apply startRecording_watch_inv.
    apply (watch_inv_frame s); auto; unfold_handlers; split_cases; auto.
  - apply (watch_inv_frame s); auto; unfold_handlers; split_cases; auto;
      intros w; unfold polls; cbn; lia.
  - unfold AudioResponse.step. cbn in He.
    destruct (nth_error (timeout_handlers (page s)) i) as [[due c]|] eqn:Hn;
      [|discriminate].
    set (s1 := set_timeout_handlers (remove_nth i (timeout_handlers (page s))) s).
    assert (Hle : forall w, (polls w s1 <= polls w s)%nat).
    { intros w. unfold polls, s1. cbn. apply filter_remove_nth_le. }
    assert (H1 : watch_inv s1).
    { apply (watch_inv_frame s); auto. }
    destruct c; unfold run_callback.
    + apply (watch_inv_frame s1); auto; unfold_handlers; split_cases; auto.
    + apply (watch_inv_frame s1); auto; unfold_handlers; split_cases; auto.
    + assert (Hhit : polls watch s = S (polls watch s1)).
      { unfold polls, s1. cbn.
        apply (filter_remove_nth_hit _ _ _ _ Hn).
        unfold is_poll. cbn. apply Nat.eqb_refl. }
      destruct (Hinv watch) as (Ha & Hb & Hc).
      apply logAmplitude_watch_inv.
      * intros w' _. apply H1.
      * lia.
      * change (watch_settled watch s1) with (watch_settled watch s).
        destruct (watch_settled watch s); auto.
        specialize (Hb eq_refl). lia.
      * change (watches (out s1)) with (watches (out s)).
        destruct (Nat.lt_ge_cases watch (watches (out s))); auto.
        apply Hc in H. lia.
    + apply (watch_inv_frame s1); auto; unfold_handlers; split_cases; auto.
Qed.

(** *** The voice key is one-shot *)

Lemma trial_start_watch_inv (t0 : Z) (w : list byte) :
  watch_inv (trial_start t0 w).
Proof.
  unfold AudioResponse.trial_start. apply startRecording_watch_inv.
  intros w'. unfold watch_ok, polls, watch_settled. cbn.
  repeat split; auto.
Qed.

Lemma run_watch_inv (t0 : Z) (w : list byte) (es : list Event) (s : State) :
  run (trial_start t0 w) es = Some s -> watch_inv s.
Proof.
  apply (run_invariant watch_inv).
  - apply step_watch_inv.
  - apply trial_start_watch_inv.
Qed.







(** *** Chunks, readers and the stop promise *)

(** The handlers are detached once and never attached again. *)
Lemma step_listening (s : State) (e : Event) :
  listening (recorder (step s e)) = true -> listening (recorder s) = true.
Proof.
  destruct e; unfold_handlers; split_cases; congruence.
Qed.

Lemma run_listening (es : list Event) (s s' : State) :
  run s es = Some s' ->
  listening (recorder s') = true -> listening (recorder s) = true.
Proof.
  revert s. induction es as [|e es IH]; intros s Hrun Hl; simpl in Hrun.
  - congruence.
  - destruct (enabled s e); [|discriminate].
    eapply step_listening, IH; eauto.
Qed.

(** Only the start handler removes chunks; the data handler appends the
    fragment when it is not empty; nothing else touches the buffer. *)
Lemma step_chunks (s : State) (e : Event) :
  listening (recorder s) = true ->
  recorded_data_chunks (this (step s e)) =
  if is_start e then []
  else recorded_data_chunks (this s) ++ kept (fragments [e]).
Proof.
  intros Hl.
  destruct e; unfold_handlers; split_cases;
    rewrite ?app_nil_r; try reflexivity; try congruence.
  all: cbn in *; try congruence.
Qed.

Lemma fragments_cons (e : Event) (es : list Event) :
  fragments (e :: es) = fragments [e] ++ fragments es.
Proof. unfold fragments. cbn. rewrite app_nil_r. reflexivity. Qed.

Lemma kept_app (a b : list Blob) : kept (a ++ b) = kept a ++ kept b.
Proof. apply filter_app. Qed.

Lemma run_chunks (es : list Event) (s s' : State) :
  run s es = Some s' ->
  forallb (fun e => negb (is_start e)) es = true ->
  listening (recorder s') = true ->
  recorded_data_chunks (this s') =
  recorded_data_chunks (this s) ++ kept (fragments es).
Proof.
  revert s. induction es as [|e es IH]; intros s Hrun Hns Hl; simpl in Hrun.
  - injection Hrun as <-. cbn. rewrite app_nil_r. reflexivity.
  - destruct (enabled s e); [|discriminate].
    cbn in Hns. apply andb_true_iff in Hns. destruct Hns as [He Hes].
    rewrite (IH _ Hrun Hes Hl).
    rewrite step_chunks.
    + apply negb_true_iff in He. rewrite He.
      rewrite (fragments_cons e es), kept_app, app_assoc. reflexivity.
    + eapply step_listening, run_listening; eauto.
Qed.





Lemma stop_event_readers (s : State) :
  listening (recorder (step s RecorderStop)) = true ->
  readers (page (step s RecorderStop)) =
  readers (page s) ++ [concat (recorded_data_chunks (this s))].
Proof.
  unfold_handlers. split_cases; intros; [reflexivity|congruence].
Qed.

Lemma reader_load_response (s : State) (i : nat) (data : Blob) :
  nth_error (readers (page s)) i = Some data ->
  response (this (step s (ReaderLoad i))) = Some (Base64 data).
Proof.
  intros H. unfold_handlers. rewrite H. split_cases; reflexivity.
Qed.


Lemma run_cons (s s' : State) (e : Event) (es : list Event) :
  run s (e :: es) = Some s' ->
  enabled s e = true /\ run (step s e) es = Some s'.
Proof.
  cbn [AudioResponse.run]. destruct (enabled s e); [auto|discriminate].
Qed.


(** C7: the chunk buffer is emptied by the start confirmation and by
    nothing else (any other task leaves it or appends to it), so after a
    re-record, whatever the earlier attempts [first] delivered, the buffer
    holds only what was delivered since the last start confirmation and the
    payload of the next stop is built from that alone. *)
Theorem rerecord_discards_prior_chunks
        (t0 : Z) (w0 : list byte) (first : list Event) (ts : Z)
        (mid : list Event) (s1 : State) :
  run (trial_start t0 w0) (first ++ RecorderStart ts :: mid) = Some s1 ->
  forallb (fun e => negb (is_start e)) mid = true ->
  listening (recorder s1) = true ->
  (forall s e, listening (recorder s) = true ->
               recorded_data_chunks (this (step s e)) =
               if is_start e then []
               else recorded_data_chunks (this s) ++ kept (fragments [e])) /\
  recorded_data_chunks (this s1) = kept (fragments mid) /\
  let s2 := step s1 RecorderStop in
  let i := List.length (readers (page s1)) in
  nth_error (readers (page s2)) i = Some (concat (kept (fragments mid))) /\
  response (this (step s2 (ReaderLoad i))) =
  Some (Base64 (concat (kept (fragments mid)))).
Proof.
  intros Hrun Hmid Hl.
  split; [intros s e; apply step_chunks|].
  rewrite run_app in Hrun.
  destruct (run (trial_start t0 w0) first) as [sa|] eqn:Hfirst; [|discriminate].
  apply run_cons in Hrun. destruct Hrun as [He0 Hrun].
  assert (Hla : listening (recorder sa) = true).
  { eapply step_listening, run_listening; eauto. }
  pose proof (run_chunks _ _ _ Hrun Hmid Hl) as Hch.
  rewrite (step_chunks sa (RecorderStart ts) Hla) in Hch. cbn in Hch.
  split; [exact Hch|].
  intros s2 i.
  assert (Hl1 : listening (recorder s2) = true).
  { unfold s2. unfold_handlers. cbn. rewrite Hl. cbn. exact Hl. }
  pose proof (stop_event_readers s1 Hl1) as Hrd.
  rewrite Hch in Hrd. fold s2 in Hrd.
  assert (Hnth : nth_error (readers (page s2)) i
                 = Some (concat (kept (fragments mid)))).
  { rewrite Hrd. unfold i. rewrite nth_error_app2 by lia.
    rewrite Nat.sub_diag. reflexivity. }
  split; [exact Hnth|].
  apply reader_load_response, Hnth.
Qed.




(** *** The estimated stimulus onset *)

Lemma step_started (s : State) (e : Event) (r : Z) :
  is_start e = false -> enabled s e = true ->
  started r s -> started r (step s e).
Proof.
  intros Hns Hen [Hr Hle]. unfold started.
  destruct e; try discriminate; revert Hen; unfold_handlers; split_cases;
    intros; split; try assumption; try lia.
Qed.

Lemma step_confirmed (s : State) (e : Event) (r : Z) :
  is_start e = false -> enabled s e = true ->
  confirmed r s -> confirmed r (step s e).
Proof.
  intros Hns Hen [Hst (v & Hv & Hle)].
  split; [apply step_started; assumption|].
  destruct Hst as [_ Hnow].
  destruct e; try discriminate; unfold_handlers; split_cases; eauto.
Qed.

Lemma run_started (es : list Event) (s s' : State) (r : Z) :
  run s es = Some s' ->
  forallb (fun e => negb (is_start e)) es = true ->
  started r s -> started r s'.
Proof.
  revert s. induction es as [|e es IH]; intros s Hrun Hns Hst.
  - injection Hrun as <-. exact Hst.
  - apply run_cons in Hrun. destruct Hrun as [Hen Hrun].
    cbn in Hns. apply andb_true_iff in Hns. destruct Hns as [He Hes].
    apply negb_true_iff in He.
    eapply IH; eauto. apply step_started; assumption.
Qed.

Lemma run_confirmed (es : list Event) (s s' : State) (r : Z) :
  run s es = Some s' ->
  forallb (fun e => negb (is_start e)) es = true ->
  confirmed r s -> confirmed r s'.
Proof.
  revert s. induction es as [|e es IH]; intros s Hrun Hns Hst.
  - injection Hrun as <-. exact Hst.
  - apply run_cons in Hrun. destruct Hrun as [Hen Hrun].
    cbn in Hns. apply andb_true_iff in Hns. destruct Hns as [He Hes].
    apply negb_true_iff in He.
    eapply IH; eauto. apply step_confirmed; assumption.
Qed.

Lemma start_event_started (s : State) (ts : Z) :
  listening (recorder s) = true ->
  enabled s (RecorderStart ts) = true ->
  started ts (step s (RecorderStart ts)).
Proof.
  intros Hl Hen. unfold started. revert Hen.
  unfold_handlers. cbn. rewrite Hl. split_cases; try discriminate;
    intros H; apply Z.leb_le in H; auto.
Qed.

Lemma resize_confirms (s : State) (r : Z) :
  started r s -> confirmed r (step s Resize).
Proof.
  intros [Hr Hle]. split; [split|]; cbn; auto.
  exists (now (page s)). auto.
Qed.

(** While the handlers are attached the trial has not finished. *)
Lemma step_unfinished (s : State) (e : Event) :
  (listening (recorder s) = true -> finished (out s) = None) ->
  listening (recorder (step s e)) = true -> finished (out (step s e)) = None.
Proof.
  intros H Hl. pose proof (step_listening _ _ Hl) as Hl0.
  specialize (H Hl0). revert Hl.
  destruct e; unfold_handlers; split_cases; intros; try assumption;
    try discriminate; try congruence.
Qed.

Lemma run_unfinished (t0 : Z) (w0 : list byte) (es : list Event) (s : State) :
  run (trial_start t0 w0) es = Some s ->
  listening (recorder s) = true -> finished (out s) = None.
Proof.
  apply (run_invariant
           (fun s => listening (recorder s) = true -> finished (out s) = None)).
  - intros s0 e H _. apply step_unfinished, H.
  - unfold AudioResponse.trial_start. unfold_handlers. split_cases; auto.
Qed.

(** The data of a trial that ends in a state where the layout is confirmed. *)
Lemma end_onset (s : State) (e : Event) (r : Z) (d : TrialData) :
  confirmed r s ->
  finished (out s) = None ->
  finished (out (step s e)) = Some d ->
  exists v, td_estimated_stimulus_onset d = Js.Number v /\ 0 <= v.
Proof.
  intros [[Hr Hnow] (v & Hv & Hle)] Hnone.
  destruct e; unfold_handlers; split_cases; intros H; try congruence.
  all: injection H as <-; cbn; rewrite ?Hv, ?Hr; cbn;
    eexists; split; [reflexivity|lia].
Qed.

(** C10 (amended): only the start handler adds a resize observer, that
    is, creates the stimulus display; once the layout confirmation that
    follows the latest start confirmation has arrived, the stimulus-visible
    time stamp is not earlier than the capture-start time stamp, and a
    trial that ends from then on emits a non-negative
    [estimated_stimulus_onset]. *)
Theorem onset_nonneg_after_layout
        (t0 : Z) (w0 : list byte) (first : list Event) (ts : Z)
        (mid rest : list Event) (s : State) (e : Event) (d : TrialData) :
  run (trial_start t0 w0)
      (first ++ RecorderStart ts :: mid ++ Resize :: rest) = Some s ->
  forallb (fun e => negb (is_start e)) (mid ++ rest) = true ->
  listening (recorder s) = true ->
  enabled s e = true ->
  finished (out (step s e)) = Some d ->
  (forall s0 e0, (observers (page s0) < observers (page (step s0 e0)))%nat ->
                 is_start e0 = true) /\
  (exists v, stimulus_start_time (this s) = Some v /\
             recorder_start_time (this s) = Some ts /\ ts <= v) /\
  exists v, td_estimated_stimulus_onset d = Js.Number v /\ 0 <= v.
Proof.
  intros Hrun Hns Hl Hen Hfin.
  split.
  { intros s0 e0. destruct e0; try reflexivity;
      unfold_handlers; split_cases; lia. }
  pose proof (run_unfinished _ _ _ _ Hrun Hl) as Hnone.
  rewrite run_app in Hrun.
  destruct (run (trial_start t0 w0) first) as [sa|] eqn:Hfirst; [|discriminate].
  apply run_cons in Hrun. destruct Hrun as [Hea Hrun].
  rewrite run_app in Hrun.
  destruct (run (step sa (RecorderStart ts)) mid) as [sb|] eqn:Hmid;
    [|discriminate].
  apply run_cons in Hrun. destruct Hrun as [Heb Hrun].
  rewrite forallb_app in Hns. apply andb_true_iff in Hns.
  destruct Hns as [Hns1 Hns2].
  assert (Hla : listening (recorder sa) = true).
  { eapply step_listening, run_listening; [exact Hmid|].
    eapply step_listening, run_listening; eauto. }
  assert (Hc : confirmed ts s).
  { eapply run_confirmed; [exact Hrun|exact Hns2|].
    apply resize_confirms.
    eapply run_started; [exact Hmid|exact Hns1|].
    apply start_event_started; assumption. }
  split.
  - destruct Hc as [[Hr _] (v & Hv & Hle)]. eauto.
  - eapply end_onset; eauto.
Qed.

(** *** The result of the trial *)

Lemma nth_error_nonempty {A} (l : list A) (i : nat) (a : A) :
  nth_error l i = Some a -> l <> [].
Proof. destruct l; [destruct i; discriminate|discriminate]. Qed.

Lemma step_payload_inv (s : State) (e : Event) :
  payload_inv trial s -> enabled s e = true -> payload_inv trial (step s e).
Proof.
  intros (Hd & Hu & Hf) Hen.
  assert (Hr : forall i data, nth_error (readers (page s)) i = Some data ->
                              exists u, audio_url (this s) = Some u).
  { intros i data H. apply Hu. eapply nth_error_nonempty, H. }
  assert (Hp : forall src, display (page s) = PlaybackControls src ->
                           exists u, audio_url (this s) = Some u).
  { intros src H. apply (Hd src H). }
  assert (Hq : forall src, display (page s) = PlaybackControls src ->
                           exists b, response (this s) = Some (Base64 b)).
  { intros src H. apply (Hd src H). }
  destruct e; revert Hen; unfold_handlers; split_cases; intros Hen;
    try discriminate; unfold payload_inv; cbn.
  all: split; [|split]; try assumption; try discriminate.
  all: try (intros src Hsrc; try discriminate; split; eauto; fail).
  all: try (intros; eauto; fail).
  all: try (intros d H; injection H as <-; unfold result_ok; cbn;
            rewrite ?Heqb, ?Heqb0, ?Heqb1, ?Heqb2; split; eauto; fail).
  all: try (intros src Hsrc;
            first [congruence | eapply Hd; reflexivity
                  | split; [eapply Hq|eapply Hp]; reflexivity]; fail).
  all: try (intros Hne;
            first [ destruct (Hu Hne) as [u Hu']; rewrite Hu' in *; eauto;
                    congruence
                  | destruct (Hr _ _ Heqo) as [u Hu']; eauto ]; fail).
  all: try (intros d H; injection H as <-; unfold result_ok; cbn;
            rewrite ?Heqb, ?Heqb0, ?Heqb1, ?Heqb2; split; eauto;
            first [ destruct (Hr _ _ Heqo) as [u Hu']
                  | destruct (Hp _ Heqd) as [u Hu'] ];
            rewrite Hu' in *; eauto; congruence).
  all: try (destruct (Hr _ _ Heqo) as [u0 Hu0]; try discriminate).
  all: try (destruct (Hd _ eq_refl) as [[b0 Hb0] [u1 Hu1]]; try discriminate).
  all: try (intros; split; eauto; fail).
  all: try (intros d H; injection H as <-; unfold result_ok; cbn;
            rewrite ?Heqb, ?Heqb0, ?Heqb1, ?Heqb2; split; eauto;
            rewrite ?Hu1; eauto; fail).
Qed.

Lemma trial_start_payload_inv (t0 : Z) (w0 : list byte) :
  payload_inv trial (trial_start t0 w0).
Proof.
  unfold AudioResponse.trial_start. unfold_handlers. split_cases.
  all: unfold payload_inv; cbn; repeat split; try discriminate;
    intros; congruence.
Qed.

Lemma revoked_url (s : State) (u : nat) :
  ~ In u (map fst (object_urls
                     (page (revokeObjectURL (Some u) s)))).
Proof.
  unfold revokeObjectURL. cbn. rewrite in_map_iff.
  intros ([u' b] & Hu & Hin). cbn in Hu. subst u'.
  apply filter_In in Hin. destruct Hin as [_ H]. cbn in H.
  rewrite Nat.eqb_refl in H. discriminate.
Qed.

(** C8 (amended): the result of every finished trial embeds the encoded
    payload as [response], whatever [save_audio_url] is; the flag decides
    only whether the result also carries the object URL (set) or carries
    none, the URL being revoked when the trial ends (not set). *)
Theorem result_embeds_payload
        (t0 : Z) (w0 : list byte) (es : list Event) (s : State)
        (d : TrialData) :
  run (trial_start t0 w0) es = Some s ->
  finished (out s) = Some d ->
  (exists payload, td_response d = Some (Base64 payload)) /\
  (save_audio_url trial = true -> exists u, td_audio_url d = Some (Some u)) /\
  (save_audio_url trial = false -> td_audio_url d = None) /\
  (forall s0 u, save_audio_url trial = false ->
                audio_url (this s0) = Some u ->
                ~ In u (map fst (object_urls (page (endTrial trial s0))))).
Proof.
  intros Hrun Hfin.
  assert (Hinv : payload_inv trial s).
  { apply (run_invariant (payload_inv trial))
      with (es := es) (s := trial_start t0 w0); auto.
    - apply step_payload_inv.
    - apply trial_start_payload_inv. }
  destruct Hinv as (_ & _ & Hf). destruct (Hf d Hfin) as [Hresp Hurl].
  split; [exact Hresp|]. split; [|split].
  - intros Hs. rewrite Hs in Hurl. exact Hurl.
  - intros Hs. rewrite Hs in Hurl. exact Hurl.
  - intros s0 u Hs Hu. unfold endTrial. rewrite Hs. cbn. rewrite Hu.
    apply (revoked_url (clearAllTimeouts (set_listening false s0)) u).
Qed.

End Runs.

(** *** Concrete trials *)

Import Scenario.


(** 400 ms of silence: the watch is neither resolved nor rejected and its
    next poll is registered. *)
Lemma watcher_never_times_out_witness :
  exists s,
    run silent_trial chrome (trial_start silent_trial chrome 0 quiet)
        silence_400ms = Some s /\
    now (page s) = 400 /\
    timeout_handlers (page s) = [(405, LogAmplitude 0)] /\
    onsets (out s) = [] /\
    timed_out (out s) = [].
Proof.
  eexists. split; [vm_compute; reflexivity|].
  split; [reflexivity|]. split; [reflexivity|]. split; [reflexivity|].
  apply (watcher_never_times_out silent_trial chrome 0 quiet silence_400ms).
  vm_compute. reflexivity.
Defined.



(** After a first attempt that recorded [01 02], the re-record that
    records [03] has the payload [03]. *)
Lemma rerecord_discards_prior_chunks_witness :
  exists s1,
    run untimed_review_trial chrome
        (trial_start untimed_review_trial chrome 0 quiet)
        (first_attempt ++ RecorderStart 1000 :: second_attempt) = Some s1 /\
    (forall s e, listening (recorder s) = true ->
                 recorded_data_chunks
                   (this (step untimed_review_trial chrome s e)) =
                 if is_start e then []
                 else recorded_data_chunks (this s) ++ kept (fragments [e])) /\
    recorded_data_chunks (this s1) = kept (fragments second_attempt) /\
    let s2 := step untimed_review_trial chrome s1 RecorderStop in
    let i := List.length (readers (page s1)) in
    nth_error (readers (page s2)) i
    = Some (concat (kept (fragments second_attempt))) /\
    response (this (step untimed_review_trial chrome s2 (ReaderLoad i))) =
    Some (Base64 (concat (kept (fragments second_attempt)))).
Proof.
  eexists. split; [vm_compute; reflexivity|].
  apply (rerecord_discards_prior_chunks untimed_review_trial chrome 0 quiet
           first_attempt 1000 second_attempt).
  - vm_compute. reflexivity.
  - reflexivity.
  - reflexivity.
Defined.

(** With [save_audio_url] off the result embeds the payload and has no
    URL. *)
Lemma result_embeds_payload_witness :
  exists s d,
    run plain_trial chrome (trial_start plain_trial chrome 0 quiet)
        (RecorderStart 0 :: three_fragments ++ [RecorderStop; ReaderLoad 0])
    = Some s /\
    finished (out s) = Some d /\
    (exists payload, td_response d = Some (Base64 payload)) /\
    (save_audio_url plain_trial = true ->
     exists u, td_audio_url d = Some (Some u)) /\
    (save_audio_url plain_trial = false -> td_audio_url d = None) /\
    (forall s0 u, save_audio_url plain_trial = false ->
                  audio_url (this s0) = Some u ->
                  ~ In u (map fst (object_urls
                                     (page (endTrial plain_trial s0))))).
Proof.
  eexists. eexists. split; [vm_compute; reflexivity|].
  split; [reflexivity|].
  eapply (result_embeds_payload plain_trial chrome 0 quiet
            (RecorderStart 0 :: three_fragments ++ [RecorderStop; ReaderLoad 0])).
  - vm_compute. reflexivity.
  - reflexivity.
Defined.

(** C8 as worded fails: with [save_audio_url] off the result of this
    trial embeds the payload [01 02 03] and holds no reference. *)
Lemma persist_flag_claim_fails : ~ persist_flag_claim plain_trial chrome.
Proof.
  intros Hclaim.
  assert (Hrun : exists s d,
    run plain_trial chrome (trial_start plain_trial chrome 0 quiet)
        (RecorderStart 0 :: three_fragments ++ [RecorderStop; ReaderLoad 0])
    = Some s /\
    finished (out s) = Some d /\
    td_response d = Some (Base64 [x01; x02; x03]) /\
    td_audio_url d = None).
  { eexists. eexists. split; [vm_compute; reflexivity|].
    split; [reflexivity|]. split; reflexivity. }
  destruct Hrun as (s & d & Hrun & Hfin & Hresp & Hurl).
  destruct (Hclaim _ _ _ _ _ Hrun Hfin) as [Hoff _].
  destruct (Hoff eq_refl) as [Hnone _].
  rewrite Hresp in Hnone. discriminate.
Qed.

(** Laid out 16 ms after the capture started, the trial emits 16. *)
Lemma onset_nonneg_after_layout_witness :
  exists s d,
    run timed_trial chrome (trial_start timed_trial chrome 0 quiet)
        ([] ++ RecorderStart 0 :: [Elapse 16] ++ Resize :: laid_out_then_timeout)
    = Some s /\
    finished (out (step timed_trial chrome s (ReaderLoad 0))) = Some d /\
    (forall s0 e0,
        (observers (page s0)
         < observers (page (step timed_trial chrome s0 e0)))%nat ->
        is_start e0 = true) /\
    (exists v, stimulus_start_time (this s) = Some v /\
               recorder_start_time (this s) = Some 0 /\ 0 <= v) /\
    exists v, td_estimated_stimulus_onset d = Js.Number v /\ 0 <= v.
Proof.
  eexists. eexists. split; [vm_compute; reflexivity|].
  split; [vm_compute; reflexivity|].
  apply (onset_nonneg_after_layout timed_trial chrome 0 quiet [] 0
           [Elapse 16] laid_out_then_timeout _ (ReaderLoad 0)).
  - vm_compute. reflexivity.
  - reflexivity.
  - reflexivity.
  - reflexivity.
  - vm_compute. reflexivity.
Defined.

(** C10 as worded fails: a trial that the recording-duration timer ends
    before any layout confirmation emits [NaN]. *)
Lemma onset_always_nonneg_fails : ~ onset_always_nonneg timed_trial chrome.
Proof.
  intros Hclaim.
  assert (Hrun : exists s d,
    run timed_trial chrome (trial_start timed_trial chrome 0 quiet)
        never_laid_out = Some s /\
    finished (out s) = Some d /\
    td_estimated_stimulus_onset d = Js.NaN).
  { eexists. eexists. split; [vm_compute; reflexivity|].
    split; reflexivity. }
  destruct Hrun as (s & d & Hrun & Hfin & Hnan).
  destruct (Hclaim _ _ _ _ _ Hrun Hfin) as (v & Hv & _).
  rewrite Hnan in Hv. discriminate.
Qed.

(** After a re-record the stimulus-visible time stamp is the one of the
    first attempt until the new display is laid out; a trial that ends
    before that emits a negative value. *)
Example stale_layout_time_is_negative :
  exists s d,
    run untimed_review_trial chrome
        (trial_start untimed_review_trial chrome 0 quiet)
        rerecord_not_laid_out = Some s /\
    finished (out s) = Some d /\
    td_estimated_stimulus_onset d = Js.Number (-984).
Proof.
  eexists. eexists. split; [vm_compute; reflexivity|].
  split; reflexivity.
Qed.

(** C4 (the code departs from it): the alert callback is to run once,
    [timer_duration] after the onset, unless the attempt ends first, and
    never more than once per attempt.  With playback review allowed the
    attempt that is stopped at 200 ms, 100 ms after the onset, leaves the
    alert timer registered, and the callback runs at 450 ms under the
    playback controls; and after a silent attempt and a re-record, the
    poll loops of both attempts see the same onset and the callback runs
    twice. *)
Theorem alert_survives_stop_and_doubles :
  (exists s1 s2,
      run review_trial chrome (trial_start review_trial chrome 0 quiet)
          stop_before_alert = Some s1 /\
      now (page s1) = 200 /\
      state (recorder s1) = inactive /\
      display (page s1) = PlaybackControls (Some 0%nat) /\
      onsets (out s1) = [(0%nat, 100)] /\
      In (450, Alert 100) (timeout_handlers (page s1)) /\
      run review_trial chrome (trial_start review_trial chrome 0 quiet)
          alert_after_stop = Some s2 /\
      alerts (out s2) = [(100, 450)]) /\
  (exists s,
      run review_trial chrome (trial_start review_trial chrome 0 quiet)
          rerecord_then_voice = Some s /\
      onsets (out s) = [(0%nat, 1005); (1%nat, 1005)] /\
      alerts (out s) = [(1005, 1355); (1005, 1355)]).
Proof.
  split.
  - eexists. eexists. split; [vm_compute; reflexivity|].
    repeat (split; [reflexivity|]).
    split; [right; left; reflexivity|].
    split; [vm_compute; reflexivity|]. reflexivity.
  - eexists. split; [vm_compute; reflexivity|]. split; reflexivity.
Qed.

(** C5 (the code departs from it): the end of an attempt is to cancel
    the stimulus-hide timer, the recording-duration timer, the poll loop
    and the alert timer.  With playback review allowed the manual stop at
    800 ms cancels none of them ([clearAllTimeouts] is only in
    [endTrial]); after a re-record at 1500 ms the recording-duration timer
    of the first attempt runs at 2000 ms and stops the second recording,
    whose own timer is due at 3500 ms. *)
Theorem timers_survive_end_of_attempt :
  (exists s,
      run timed_review_trial chrome
          (trial_start timed_review_trial chrome 0 quiet)
          manual_stop_at_800ms = Some s /\
      now (page s) = 800 /\
      state (recorder s) = inactive /\
      display (page s) = PlaybackControls (Some 0%nat) /\
      timeout_handlers (page s)
      = [(1000, HideStimulus); (2000, RecordingTimeout);
         (805, LogAmplitude 0)]) /\
  (exists s,
      run timed_review_trial chrome
          (trial_start timed_review_trial chrome 0 quiet)
          stale_timer_at_2000ms = Some s /\
      now (page s) = 2000 /\
      recorder_start_time (this s) = Some 1500 /\
      state (recorder s) = inactive /\
      tasks (recorder s) = [StopTask] /\
      In (3500, RecordingTimeout) (timeout_handlers (page s))).
Proof.
  split.
  - eexists. split; [vm_compute; reflexivity|].
    repeat (split; [reflexivity|]). reflexivity.
  - eexists. split; [vm_compute; reflexivity|].
    repeat (split; [reflexivity|]). right. left. reflexivity.
Qed.

End AudioResponseFacts.

(** ** The typing logger *)

Module ImageKeyboardFacts.

Import ImageKeyboard.

(** C9 (the code departs from it): both variants are to record the
    elapsed time since the start of the trial.  On the same keys (the
    trigger word at 100 ms, space at 200 ms) both swap the stimulus, the
    logger records 200 and the earlier variant records -200; in every state
    the earlier variant assigns the opposite of what the logger assigns. *)
Theorem eventTime_conventions_differ :
  (exists s,
      run Earlier typing_trial (trial_start typing_trial 1000)
          trigger_then_space = Some s /\
      stimulus_swapped s = true /\
      eventTime s = Some (-200)) /\
  (exists s,
      run Logger typing_trial (trial_start typing_trial 1000)
          trigger_then_space = Some s /\
      stimulus_swapped s = true /\
      eventTime s = Some 200) /\
  (forall s, swap_eventTime Earlier s = - swap_eventTime Logger s).
Proof.
  split; [|split].
  - eexists. split; [vm_compute; reflexivity|]. split; reflexivity.
  - eexists. split; [vm_compute; reflexivity|]. split; reflexivity.
  - intros s. unfold swap_eventTime. lia.
Qed.

End ImageKeyboardFacts.

(** * Further properties *)

(** ** Bounds of the amplitude *)

Module VoiceKeyBounds.

Import VoiceKey VoiceKeyFacts.

Lemma value_square_le_1 (b : byte) : (value b * value b <= 1)%Q.
Proof. destruct b; unfold Qle; vm_compute; discriminate. Qed.

Lemma fold_squares_le (l : list byte) (acc : Q) :
  (fold_left (fun sum b => (sum + value b * value b)%Q) l acc
   <= acc + inject_Z (Z.of_nat (List.length l)))%Q.
Proof.
  revert acc. induction l as [|b l IH]; intros acc.
  - cbn. rewrite Qplus_0_r. apply Qle_refl.
  - cbn [fold_left List.length]. eapply Qle_trans; [apply IH|].
    rewrite Nat2Z.inj_succ. unfold Z.succ. rewrite inject_Z_plus.
    rewrite <- Qplus_assoc. apply Qplus_le_compat; [apply Qle_refl|].
    rewrite Qplus_comm. apply Qplus_le_compat; [apply Qle_refl|].
    apply value_square_le_1.
Qed.

Lemma mean_square_le_1 (d : list byte) (n : nat) : (mean_square d n <= 1)%Q.
Proof.
  unfold mean_square, sum_squares.
  destruct n as [|n].
  - unfold Qdiv. cbn. rewrite Qmult_0_r. discriminate.
  - apply Qle_shift_div_r.
    + unfold Qlt. cbn. lia.
    + rewrite Qmult_1_l.
      eapply Qle_trans; [apply fold_squares_le|].
      rewrite Qplus_0_l. rewrite <- Zle_Qle. apply inj_le.
      rewrite length_firstn. lia.
Qed.

(** X1: the amplitude a poll computes from a non-empty sample array lies
    between 0 and 1, whatever the analyser wrote into it. *)
Theorem amplitude_between_0_and_1 (d : list byte) (n : nat) :
  n <> O -> List.length d = n ->
  (0 <= amplitude d n <= 1)%R.
Proof.
  intros _ _. unfold amplitude. split; [apply sqrt_pos|].
  rewrite <- sqrt_1. apply sqrt_le_1_alt.
  replace 1%R with (Q2R 1) by (unfold Q2R; cbn; lra).
  apply Qle_Rle, mean_square_le_1.
Qed.

(** The loudest window of four samples. *)
Lemma amplitude_between_0_and_1_witness :
  let d := [x00; x00; x00; x00] in
  4%nat <> O /\ List.length d = 4%nat /\ (0 <= amplitude d 4 <= 1)%R.
Proof.
  intros d. split; [discriminate|]. split; [reflexivity|].
  apply (amplitude_between_0_and_1 d 4); [discriminate|reflexivity].
Defined.

(** No window exceeds a threshold of 1 or more. *)
Lemma exceeds_false_from_1 (d : list byte) (n : nat) (threshold : Q) :
  (1 <= threshold)%Q -> exceeds d n threshold = false.
Proof.
  intros H. unfold exceeds. destruct n as [|n]; [reflexivity|].
  assert (H0 : (0 <= threshold)%Q) by (eapply Qle_trans; [|exact H]; discriminate).
  apply Qle_bool_iff in H0. rewrite H0.
  apply negb_false_iff, Qle_bool_iff.
  eapply Qle_trans; [apply mean_square_le_1|].
  eapply Qle_trans; [exact H|].
  rewrite <- (Qmult_1_l threshold) at 1.
  apply Qmult_le_compat_r; [exact H|]. apply Qle_bool_iff, H0.
Qed.

(** Every window exceeds a negative threshold. *)
Lemma exceeds_true_negative (d : list byte) (n : nat) (threshold : Q) :
  n <> O -> (threshold < 0)%Q -> exceeds d n threshold = true.
Proof.
  intros Hn H. unfold exceeds. destruct n as [|n]; [congruence|].
  destruct (Qle_bool 0 threshold) eqn:E; [|reflexivity].
  apply Qle_bool_iff in E. exfalso. apply (Qlt_not_le _ _ H E).
Qed.

End VoiceKeyBounds.

(** ** More on the runs of the recording plugin *)

Module AudioResponseRuns.

Import AudioResponse AudioResponseFacts AudioPredicates.

Section Runs.
Variable trial : Trial.
Variable browser : Browser.
Local Abbreviation step := (step trial browser).
Local Abbreviation run := (run trial browser).
Local Abbreviation trial_start := (trial_start trial browser).
Local Abbreviation array_ok := (AudioPredicates.array_ok browser).
Local Abbreviation alert_inv := (AudioPredicates.alert_inv trial).

Lemma run_invariant_on (allowed : Event -> bool) (P : State -> Prop) :
  (forall s e, P s -> enabled s e = true -> allowed e = true -> P (step s e)) ->
  forall es s s', P s -> forallb allowed es = true -> run s es = Some s' -> P s'.
Proof.
  intros Hstep. induction es as [|e es IH]; intros s s' Hs Hall Hrun.
  - injection Hrun as <-. exact Hs.
  - apply run_cons in Hrun. destruct Hrun as [Hen Hrun].
    cbn in Hall. apply andb_true_iff in Hall. destruct Hall as [He Hes].
    apply (IH (step s e) s'); auto.
Qed.

(** *** Response times *)




(** X3: a trial in which the done button was never clicked has no
    response time: [rt] stays [null], also in the data it hands over. *)
Theorem rt_null_without_click
        (t0 : Z) (w0 : list byte) (es : list Event) (s : State) :
  run (trial_start t0 w0) es = Some s ->
  forallb (fun e => negb (is_done_click e)) es = true ->
  rt (this s) = None /\
  (forall d, finished (out s) = Some d -> td_rt d = None).
Proof.
  intros Hrun Hno.
  apply (run_invariant_on (fun e => negb (is_done_click e)) no_rt)
    with (es := es) (s := trial_start t0 w0); auto.
  - intros s0 e [Hr Hf] Hen He. unfold no_rt.
    destruct e; try discriminate; unfold_handlers; split_cases;
      split; try assumption; try congruence.
    all: intros d Hd; injection Hd as <-; exact Hr.
  - unfold AudioResponse.trial_start. unfold_handlers. split_cases.
    all: unfold no_rt; cbn; split; intros; congruence.
Qed.

(** *** The sample array *)

Lemma length_getByteTimeDomainData (w d : list byte) :
  List.length (VoiceKey.getByteTimeDomainData w d) = List.length d.
Proof.
  unfold VoiceKey.getByteTimeDomainData.
  rewrite length_app, length_firstn, length_skipn. lia.
Qed.

Lemma step_array_ok (s : State) (e : Event) :
  array_ok s -> array_ok (step s e).
Proof.
  intros [Hl Hb]. unfold AudioPredicates.array_ok.
  destruct e; unfold_handlers; split_cases;
    rewrite ?length_getByteTimeDomainData, ?repeat_length;
    split; cbn; rewrite ?length_getByteTimeDomainData, ?repeat_length;
    try congruence.
  all: rewrite ?length_app, ?length_firstn, ?length_skipn, ?repeat_length;
    lia.
Qed.

(** X4: throughout a trial the sample array has exactly
    [frequencyBinCount] entries, which is [bufferLength]: the amplitude
    loop reads the whole array and nothing beyond it. *)
Theorem dataArray_has_bufferLength_entries
        (t0 : Z) (w0 : list byte) (es : list Event) (s : State) :
  run (trial_start t0 w0) es = Some s ->
  List.length (dataArray (this s)) = frequencyBinCount browser /\
  bufferLength (this s) = frequencyBinCount browser /\
  firstn (bufferLength (this s)) (dataArray (this s)) = dataArray (this s).
Proof.
  intros Hrun.
  assert (H : array_ok s).
  { apply (run_invariant trial browser array_ok)
      with (es := es) (s := trial_start t0 w0); auto.
    - intros s0 e H _. apply step_array_ok, H.
    - unfold AudioResponse.trial_start. unfold_handlers. unfold AudioPredicates.array_ok.
      split_cases; split; cbn; try reflexivity.
      all: rewrite ?length_app, ?length_firstn, ?length_skipn, ?repeat_length;
        lia. }
  destruct H as [Hl Hb]. split; [congruence|]. split; [exact Hb|].
  rewrite <- Hl. apply firstn_all.
Qed.


(** *** Alerts *)

Lemma alert_inv_frame (s s' : State) :
  (forall due trig, In (due, Alert trig) (timeout_handlers (page s')) ->
                    In (due, Alert trig) (timeout_handlers (page s))) ->
  (alert_timers s' <= alert_timers s)%nat ->
  alerts (out s') = alerts (out s) ->
  onsets (out s') = onsets (out s) ->
  alert_inv s -> alert_inv s'.
Proof.
  intros Ht Hc Ha Ho (H1 & H2 & H3 & H4). unfold AudioPredicates.alert_inv.
  rewrite Ha, Ho. repeat split; auto.
  - apply (H1 due trig); auto.
  - apply (H1 due trig); auto.
  - apply (H2 trig t); auto.
  - apply (H2 trig t); auto.
  - lia.
Qed.

Lemma in_settled (w : nat) (t : Z) (s : State) :
  In (w, t) (onsets (out s)) -> watch_settled w s = true.
Proof.
  intros H. unfold watch_settled. apply orb_true_iff. left.
  apply existsb_exists. exists (w, t). split; [exact H|]. cbn.
  apply Nat.eqb_refl.
Qed.

Lemma not_settled_not_in (w : nat) (s : State) :
  watch_settled w s = false -> ~ In w (map fst (onsets (out s))).
Proof.
  intros H Hin. apply in_map_iff in Hin. destruct Hin as ([w' t] & Hw & Hin).
  cbn in Hw. subst w'. apply in_settled in Hin. congruence.
Qed.

Lemma logAmplitude_alert_inv (w : nat) (s : State) :
  alert_inv s -> alert_inv (logAmplitude trial browser w s).
Proof.
  intros Hinv. unfold logAmplitude, resolve_watch, reject_watch.
  set (s1 := set_dataArray _ s).
  assert (Hinv1 : alert_inv s1) by exact Hinv.
  clearbody s1.
  destruct (VoiceKey.exceeds _ _ _); [|destruct (Js.gt _ _)].
  - destruct (watch_settled w s1) eqn:Hw; [exact Hinv1|].
    destruct Hinv1 as (H1 & H2 & H3 & H4). unfold AudioPredicates.alert_inv, setTimeout.
    cbn. repeat split.
    + apply in_app_or in H. destruct H as [H|[H|[]]].
      * apply (H1 due trig H).
      * injection H as <- <-. reflexivity.
    + apply in_app_or in H. destruct H as [H|[H|[]]].
      * destruct (H1 due trig H) as [_ [w' Hw']]. exists w'.
        apply in_or_app. auto.
      * injection H as <- <-. exists w. apply in_or_app. right. left.
        reflexivity.
    + apply (H2 trig t H).
    + destruct (H2 trig t H) as [_ [w' Hw']]. exists w'.
      apply in_or_app. auto.
    + unfold alert_timers in *. cbn. rewrite filter_app, !length_app. cbn.
      lia.
    + rewrite map_app. cbn. apply NoDup_app.
      * exact H4.
      * constructor; [intros []|constructor].
      * intros x Hx [<-|[]]. revert Hx. apply not_settled_not_in, Hw.
  - destruct (watch_settled w s1); [exact Hinv1|].
    apply (alert_inv_frame s1); auto.
  - apply (alert_inv_frame s1); auto.
    + intros due trig H. cbn in H. apply in_app_or in H.
      destruct H as [H|[H|[]]]; [exact H|discriminate].
    + unfold alert_timers, setTimeout. cbn. rewrite filter_app, length_app.
      cbn. lia.
Qed.

Lemma in_remove_nth {A} (x : A) (i : nat) (l : list A) :
  In x (remove_nth i l) -> In x l.
Proof.
  unfold remove_nth. intros H. apply in_app_or in H. destruct H as [H|H].
  - rewrite <- (firstn_skipn i). apply in_or_app. auto.
  - rewrite <- (firstn_skipn (S i)). apply in_or_app. auto.
Qed.

Lemma startRecording_alert_inv (s : State) :
  alert_inv s -> alert_inv (startRecording trial browser s).
Proof.
  intros H. unfold startRecording. cbn.
  destruct (state (recorder s)).
  - unfold logAmplitudeUntilThresholdReached. apply logAmplitude_alert_inv.
    exact H.
  - exact H.
Qed.

Lemma step_alert_inv (s : State) (e : Event) :
  alert_inv s -> enabled s e = true -> alert_inv (step s e).
Proof.
  intros Hinv Hen.
  assert (Hcleared : forall s', timeout_handlers (page s') = [] ->
            alerts (out s') = alerts (out s) ->
            onsets (out s') = onsets (out s) -> alert_inv s').
  { intros s' Ht Ha Ho. apply (alert_inv_frame s); auto.
    - rewrite Ht. intros ? ? [].
    - unfold alert_timers. rewrite Ht. cbn. lia. }
  destruct e.
  - apply (alert_inv_frame s); auto.
  - apply (alert_inv_frame s); auto.
  - apply (alert_inv_frame s); auto; unfold_handlers; split_cases; auto.
    all: try (intros due trig H; repeat (apply in_app_or in H;
              destruct H as [H|H]); auto;
              repeat (destruct H as [H|H]; try discriminate); tauto).
    all: unfold alert_timers; cbn; rewrite ?filter_app, ?length_app; cbn; lia.
  - apply (alert_inv_frame s); auto; unfold_handlers; split_cases; auto.
  - apply (alert_inv_frame s); auto; unfold_handlers; split_cases; auto.
  - unfold_handlers. split_cases; try exact Hinv.
    all: first [ apply Hcleared; reflexivity
               | apply (alert_inv_frame s); auto ].
  - apply (alert_inv_frame s); auto.
  - apply (alert_inv_frame s); auto; unfold_handlers; split_cases; auto.
  - unfold AudioResponse.step, record_again_click.
    apply startRecording_alert_inv.
    apply (alert_inv_frame s); auto; unfold_handlers; split_cases; auto.
  - unfold AudioResponse.step. apply Hcleared; unfold_handlers; split_cases; auto.
  - unfold AudioResponse.step. cbn in Hen.
    destruct (nth_error (timeout_handlers (page s)) i) as [[due c]|] eqn:Hn;
      [|discriminate].
    apply Z.leb_le in Hen.
    set (s1 := set_timeout_handlers (remove_nth i (timeout_handlers (page s))) s).
    assert (H1 : alert_inv s1).
    { apply (alert_inv_frame s); auto.
      - intros d t H. eapply in_remove_nth, H.
      - unfold alert_timers, s1. cbn. apply filter_remove_nth_le. }
    destruct c; unfold run_callback.
    + apply (alert_inv_frame s1); auto; unfold_handlers; split_cases; auto.
    + apply (alert_inv_frame s1); auto; unfold_handlers; split_cases; auto.
    + apply logAmplitude_alert_inv, H1.
    + assert (Hhit : alert_timers s = S (alert_timers s1)).
      { unfold alert_timers, s1. cbn.
        apply (filter_remove_nth_hit _ _ _ _ Hn). reflexivity. }
      destruct Hinv as (Ha & Hb & Hc & Hd).
      destruct (Ha due triggerTime (nth_error_In _ _ Hn)) as [Hdue Hw].
      destruct H1 as (Ha1 & _).
      unfold alert_callback, showAlertImage.
      assert (Hgoal : forall s2, timeout_handlers (page s2) = timeout_handlers (page s1) ->
                alerts (out s2) = alerts (out s1) ->
                onsets (out s2) = onsets (out s1) ->
                alert_inv (set_alerts (alerts (out s2) ++ [(triggerTime, now (page s1))]) s2)).
      { intros s2 Ht Hal Hon. unfold AudioPredicates.alert_inv. cbn. rewrite Ht, Hal, Hon.
        repeat split.
        - apply (Ha1 due0 trig H).
        - apply (Ha1 due0 trig H).
        - apply in_app_or in H. destruct H as [H|[H|[]]].
          + apply (Hb trig t H).
          + injection H as <- <-. cbn. lia.
        - apply in_app_or in H. destruct H as [H|[H|[]]].
          + apply (Hb trig t H).
          + injection H as <- <-. exact Hw.
        - unfold alert_timers in *. cbn. rewrite Ht. rewrite length_app. cbn.
          cbn in Hhit. lia.
        - exact Hd. }
      destruct (display (page s1)) eqn:Hdisp; apply Hgoal; reflexivity.
Qed.

Lemma run_alert_inv
      (t0 : Z) (w0 : list byte) (es : list Event) (s : State) :
  run (trial_start t0 w0) es = Some s -> alert_inv s.
Proof.
  apply (run_invariant trial browser alert_inv).
  - apply step_alert_inv.
  - unfold AudioResponse.trial_start. apply startRecording_alert_inv.
    unfold AudioPredicates.alert_inv, alert_timers. cbn.
    repeat split; try (intros; contradiction); try lia. constructor.
Qed.

(** X5: every alert that was shown belongs to a recorded voice onset and
    was shown no earlier than [timer_duration] after it; there are never
    more alerts than onsets. *)
Theorem alert_never_early
        (t0 : Z) (w0 : list byte) (es : list Event) (s : State) :
  run (trial_start t0 w0) es = Some s ->
  (forall trig t, In (trig, t) (alerts (out s)) ->
                  trig + Z.max 0 (timer_duration trial) <= t /\
                  exists w, In (w, trig) (onsets (out s))) /\
  (List.length (alerts (out s)) <= List.length (onsets (out s)))%nat.
Proof.
  intros Hrun. destruct (run_alert_inv _ _ _ _ Hrun) as (_ & H2 & H3 & _).
  split; [exact H2|lia].
Qed.

(** *** Thresholds out of range *)

Lemma step_no_onset (s : State) (e : Event) :
  (1 <= amplitude_threshold trial)%Q ->
  onsets (out (step s e)) = onsets (out s).
Proof.
  intros H.
  destruct e; unfold_handlers;
    rewrite ?(VoiceKeyBounds.exceeds_false_from_1 _ _ _ H);
    split_cases; try reflexivity.
  all: rewrite (VoiceKeyBounds.exceeds_false_from_1 _ _ _ H) in *; discriminate.
Qed.

(** X6: with a threshold of 1 or more the voice key never fires: no onset
    is recorded and no alert shown, whatever the microphone delivers. *)
Theorem threshold_from_1_never_fires
        (t0 : Z) (w0 : list byte) (es : list Event) (s : State) :
  (1 <= amplitude_threshold trial)%Q ->
  run (trial_start t0 w0) es = Some s ->
  onsets (out s) = [] /\ alerts (out s) = [].
Proof.
  intros H Hrun.
  assert (Ho : onsets (out s) = []).
  { apply (run_invariant trial browser (fun s => onsets (out s) = []))
      with (es := es) (s := trial_start t0 w0); auto.
    - intros s0 e H0 _. rewrite step_no_onset; assumption.
    - unfold AudioResponse.trial_start. unfold_handlers.
      rewrite ?(VoiceKeyBounds.exceeds_false_from_1 _ _ _ H).
      split_cases; try reflexivity.
      all: rewrite (VoiceKeyBounds.exceeds_false_from_1 _ _ _ H) in *;
        discriminate. }
  split; [exact Ho|].
  destruct (run_alert_inv _ _ _ _ Hrun) as (_ & _ & H3 & _).
  rewrite Ho in H3. cbn in H3.
  destruct (alerts (out s)); [reflexivity|cbn in H3; lia].
Qed.

(** X7: with a negative threshold (and an analyser that has bins) the
    voice key fires in [trial()] itself: the onset is the time of the call
    and the alert is armed [timer_duration] later. *)
Theorem negative_threshold_fires_at_once (t0 : Z) (w0 : list byte) :
  (amplitude_threshold trial < 0)%Q ->
  frequencyBinCount browser <> O ->
  onsets (out (trial_start t0 w0)) = [(O, t0)] /\
  timeout_handlers (page (trial_start t0 w0))
  = [(t0 + Z.max 0 (timer_duration trial), Alert t0)].
Proof.
  intros H Hn.
  unfold AudioResponse.trial_start, startRecording,
    logAmplitudeUntilThresholdReached, logAmplitude. cbn.
  rewrite (VoiceKeyBounds.exceeds_true_negative _ _ _ Hn H).
  unfold resolve_watch. cbn. split; reflexivity.
Qed.

(** *** One attempt *)

Lemma onsets_bounded (s : State) :
  watch_inv s -> alert_inv s ->
  (List.length (onsets (out s)) <= watches (out s))%nat.
Proof.
  intros Hw (_ & _ & _ & Hnd).
  rewrite <- (length_map fst).
  rewrite <- (length_seq (watches (out s)) 0).
  apply NoDup_incl_length; [exact Hnd|].
  intros w Hin. apply in_seq. split; [lia|]. cbn.
  apply in_map_iff in Hin. destruct Hin as ([w' t] & <- & Hin). cbn.
  apply in_settled in Hin.
  destruct (Nat.lt_ge_cases w' (watches (out s))) as [Hlt|Hge]; [exact Hlt|].
  destruct (Hw w') as (_ & _ & H3). destruct (H3 Hge) as [_ Hf]. congruence.
Qed.

(** X8: a trial without a re-record has one watch, hence at most one
    onset and at most one alert. *)
Theorem at_most_one_alert_without_rerecord
        (t0 : Z) (w0 : list byte) (es : list Event) (s : State) :
  run (trial_start t0 w0) es = Some s ->
  forallb (fun e => negb (is_record_again e)) es = true ->
  watches (out s) = 1%nat /\
  (List.length (onsets (out s)) <= 1)%nat /\
  (List.length (alerts (out s)) <= 1)%nat.
Proof.
  intros Hrun Hno.
  assert (Hw : watches (out s) = 1%nat).
  { apply (run_invariant_on (fun e => negb (is_record_again e))
             (fun s => watches (out s) = 1%nat))
      with (es := es) (s := trial_start t0 w0); auto.
    - intros s0 e H Hen He.
      destruct e; try discriminate; unfold_handlers; split_cases; exact H.
    - unfold AudioResponse.trial_start. unfold_handlers. split_cases;
        reflexivity. }
  pose proof (run_watch_inv _ _ _ _ _ _ Hrun) as Hwi.
  pose proof (run_alert_inv _ _ _ _ Hrun) as Hai.
  pose proof (onsets_bounded s Hwi Hai) as Hb.
  destruct Hai as (_ & _ & H3 & _).
  split; [exact Hw|]. split; lia.
Qed.


(** *** Trials without playback review *)

Lemma length_remove_nth {A} (i : nat) (l : list A) (a : A) :
  nth_error l i = Some a -> S (List.length (remove_nth i l)) = List.length l.
Proof.
  intros H. unfold remove_nth.
  assert (Hi : (i < List.length l)%nat) by (apply nth_error_Some; congruence).
  rewrite length_app, length_firstn, length_skipn. lia.
Qed.

Lemma step_no_playback_inv (s : State) (e : Event) :
  allow_playback trial = false ->
  no_playback_inv s -> enabled s e = true -> no_playback_inv (step s e).
Proof.
  intros Hnp (Hd & Ho & Hf) Hen. unfold no_playback_inv, outstanding in *.
  destruct e; revert Hen; unfold_handlers; rewrite ?Hnp; split_cases;
    intros Hen; try discriminate.
  all: try (exfalso; eapply Hd; first [eassumption | reflexivity]).
  all: cbn in *.
  all: try (pose proof (length_remove_nth _ _ _ Heqo) as Hlen).
  all: split;
    [ intros src Hsrc;
      first [discriminate | eapply Hd; eassumption | congruence]
    | split ].
  all: try (rewrite ?Heql, ?filter_app, ?length_app; cbn; lia).
  all: try (intros Hfin; (destruct (Hf Hfin) as (Hl & Ht & Hdi & Hr);
            first [ congruence
                  | rewrite Ht in Heqo; destruct i; discriminate
                  | rewrite Hr in Heqo; destruct i; discriminate
                  | repeat split; first [assumption | congruence] ]); fail).
  all: try (intros Hfin; repeat split; try reflexivity;
            destruct (remove_nth i (readers (page s)));
            [reflexivity | cbn in Hlen; lia]).
Qed.

Lemma trial_start_no_playback_inv (t0 : Z) (w0 : list byte) :
  no_playback_inv (trial_start t0 w0).
Proof.
  unfold AudioResponse.trial_start. unfold_handlers. split_cases.
  all: unfold no_playback_inv, outstanding; cbn; repeat split;
    try discriminate; try lia.
  all: exfalso; apply H; reflexivity.
Qed.

Lemma run_no_playback_inv
      (t0 : Z) (w0 : list byte) (es : list Event) (s : State) :
  allow_playback trial = false ->
  run (trial_start t0 w0) es = Some s -> no_playback_inv s.
Proof.
  intros Hnp. apply (run_invariant trial browser no_playback_inv).
  - intros s0 e. apply step_no_playback_inv, Hnp.
  - apply trial_start_no_playback_inv.
Qed.

(** X9: without [allow_playback] the playback controls are never shown,
    so there is never a record-again or continue button to click. *)
Theorem playback_controls_need_allow_playback
        (t0 : Z) (w0 : list byte) (es : list Event) (s : State) :
  allow_playback trial = false ->
  run (trial_start t0 w0) es = Some s ->
  (forall src, display (page s) <> PlaybackControls src) /\
  enabled s ClickRecordAgain = false /\
  enabled s ClickContinue = false.
Proof.
  intros Hnp Hrun.
  destruct (run_no_playback_inv _ _ _ _ Hnp Hrun) as (Hd & _).
  split; [exact Hd|]. unfold enabled.
  destruct (display (page s)) eqn:E; try (split; reflexivity).
  exfalso. eapply Hd. reflexivity.
Qed.

Lemma step_after_finish (s : State) (e : Event) (d : TrialData) :
  no_playback_inv s -> finished (out s) = Some d -> enabled s e = true ->
  finished (out (step s e)) = Some d /\
  alerts (out (step s e)) = alerts (out s) /\
  response (this (step s e)) = response (this s).
Proof.
  intros (_ & _ & Hf) Hfin Hen.
  destruct Hf as (Hl & Ht & Hdi & Hr); [congruence|].
  destruct e; revert Hen; unfold_handlers; cbn;
    rewrite ?Hl, ?Ht, ?Hdi, ?Hr; cbn; auto; try discriminate.
  destruct i; discriminate.
Qed.

(** X10: without playback review, once the trial has handed over its
    data nothing that can still happen changes it: the data, the response
    and the alerts stay, and no timer is left. *)
Theorem no_playback_result_is_final
        (t0 : Z) (w0 : list byte) (es es' : list Event) (s s' : State)
        (d : TrialData) :
  allow_playback trial = false ->
  run (trial_start t0 w0) es = Some s ->
  finished (out s) = Some d ->
  run s es' = Some s' ->
  finished (out s') = Some d /\
  timeout_handlers (page s') = [] /\
  alerts (out s') = alerts (out s) /\
  response (this s') = response (this s).
Proof.
  intros Hnp Hrun Hfin Hrun'.
  pose proof (run_no_playback_inv _ _ _ _ Hnp Hrun) as Hinv.
  assert (H : no_playback_inv s' /\ finished (out s') = Some d /\
              alerts (out s') = alerts (out s) /\
              response (this s') = response (this s)).
  { apply (run_invariant trial browser
             (fun x => no_playback_inv x /\ finished (out x) = Some d /\
                       alerts (out x) = alerts (out s) /\
                       response (this x) = response (this s)))
      with (es := es') (s := s); auto.
    intros s0 e (Hi & Hd & Ha & Hresp) Hen.
    destruct (step_after_finish s0 e d Hi Hd Hen) as (H1 & H2 & H3).
    split; [apply step_no_playback_inv; assumption|].
    split; [exact H1|]. split; congruence. }
  destruct H as ((_ & _ & Hf) & Hd & Ha & Hresp).
  destruct Hf as (_ & Ht & _); [congruence|]. auto.
Qed.

End Runs.

Import Scenario.


(** A trial ended by its recording-duration timer. *)
Lemma rt_null_without_click_witness :
  exists s,
    run timed_trial chrome (trial_start timed_trial chrome 0 quiet)
        never_laid_out = Some s /\
    forallb (fun e => negb (is_done_click e)) never_laid_out = true /\
    rt (this s) = None /\
    (forall d, finished (out s) = Some d -> td_rt d = None).
Proof.
  eexists. split; [vm_compute; reflexivity|]. split; [reflexivity|].
  apply (rt_null_without_click timed_trial chrome 0 quiet never_laid_out).
  - vm_compute. reflexivity.
  - reflexivity.
Defined.

(** Eighty polls of a four-bin analyser. *)
Lemma dataArray_has_bufferLength_entries_witness :
  exists s,
    run silent_trial chrome (trial_start silent_trial chrome 0 quiet)
        silence_400ms = Some s /\
    List.length (dataArray (this s)) = frequencyBinCount chrome /\
    bufferLength (this s) = frequencyBinCount chrome /\
    firstn (bufferLength (this s)) (dataArray (this s)) = dataArray (this s).
Proof.
  eexists. split; [vm_compute; reflexivity|].
  apply (dataArray_has_bufferLength_entries silent_trial chrome 0 quiet
           silence_400ms).
  vm_compute. reflexivity.
Defined.

(** The voice at 100 ms, the alert at 450 ms. *)
Lemma alert_never_early_witness :
  exists s,
    run review_trial chrome (trial_start review_trial chrome 0 quiet)
        alert_after_stop = Some s /\
    (forall trig t, In (trig, t) (alerts (out s)) ->
                    trig + Z.max 0 (timer_duration review_trial) <= t /\
                    exists w, In (w, trig) (onsets (out s))) /\
    (List.length (alerts (out s)) <= List.length (onsets (out s)))%nat.
Proof.
  eexists. split; [vm_compute; reflexivity|].
  apply (alert_never_early review_trial chrome 0 quiet alert_after_stop).
  vm_compute. reflexivity.
Defined.

(** A window of amplitude 1/2 against the threshold 1. *)
Lemma threshold_from_1_never_fires_witness :
  exists s,
    (1 <= amplitude_threshold (with_threshold 1))%Q /\
    run (with_threshold 1) chrome
        (trial_start (with_threshold 1) chrome 0 quiet)
        voice_polled_at_100ms = Some s /\
    onsets (out s) = [] /\ alerts (out s) = [].
Proof.
  eexists. split; [vm_compute; discriminate|].
  split; [vm_compute; reflexivity|].
  apply (threshold_from_1_never_fires (with_threshold 1) chrome 0 quiet
           voice_polled_at_100ms).
  - vm_compute. discriminate.
  - vm_compute. reflexivity.
Defined.

(** The threshold -1/10 and a silent window. *)
Lemma negative_threshold_fires_at_once_witness :
  let trial := with_threshold (-1 # 10) in
  (amplitude_threshold trial < 0)%Q /\
  frequencyBinCount chrome <> O /\
  onsets (out (trial_start trial chrome 0 quiet)) = [(O, 0)] /\
  timeout_handlers (page (trial_start trial chrome 0 quiet))
  = [(0 + Z.max 0 (timer_duration trial), Alert 0)].
Proof.
  intros trial. split; [vm_compute; reflexivity|]. split; [discriminate|].
  apply (negative_threshold_fires_at_once trial chrome 0 quiet).
  - vm_compute. reflexivity.
  - discriminate.
Defined.

(** One attempt with the voice at 100 ms: one onset, one alert. *)
Lemma at_most_one_alert_without_rerecord_witness :
  exists s,
    run review_trial chrome (trial_start review_trial chrome 0 quiet)
        alert_after_stop = Some s /\
    forallb (fun e => negb (is_record_again e)) alert_after_stop = true /\
    watches (out s) = 1%nat /\
    (List.length (onsets (out s)) <= 1)%nat /\
    (List.length (alerts (out s)) <= 1)%nat.
Proof.
  eexists. split; [vm_compute; reflexivity|]. split; [reflexivity|].
  apply (at_most_one_alert_without_rerecord review_trial chrome 0 quiet
           alert_after_stop).
  - vm_compute. reflexivity.
  - reflexivity.
Defined.

(** The one-attempt trial after its recording was encoded. *)
Lemma playback_controls_need_allow_playback_witness :
  exists s,
    allow_playback plain_trial = false /\
    run plain_trial chrome (trial_start plain_trial chrome 0 quiet)
        one_attempt = Some s /\
    (forall src, display (page s) <> PlaybackControls src) /\
    enabled s ClickRecordAgain = false /\
    enabled s ClickContinue = false.
Proof.
  eexists. split; [reflexivity|]. split; [vm_compute; reflexivity|].
  apply (playback_controls_need_allow_playback plain_trial chrome 0 quiet
           one_attempt).
  - reflexivity.
  - vm_compute. reflexivity.
Defined.

(** The finished one-attempt trial, one second on. *)
Lemma no_playback_result_is_final_witness :
  exists s d s',
    run plain_trial chrome (trial_start plain_trial chrome 0 quiet)
        one_attempt = Some s /\
    allow_playback plain_trial = false /\
    finished (out s) = Some d /\
    run plain_trial chrome s [Elapse 1000] = Some s' /\
    finished (out s') = Some d /\
    timeout_handlers (page s') = [] /\
    alerts (out s') = alerts (out s) /\
    response (this s') = response (this s).
Proof.
  eexists. eexists. eexists. split; [vm_compute; reflexivity|].
  split; [reflexivity|]. split; [reflexivity|]. split; [reflexivity|].
  eapply (no_playback_result_is_final plain_trial chrome 0 quiet one_attempt
            [Elapse 1000]).
  - reflexivity.
  - vm_compute. reflexivity.
  - reflexivity.
  - reflexivity.
Defined.

End AudioResponseRuns.

(** ** Object URLs of the recordings *)

Module ObjectUrls.

Import AudioResponse AudioResponseFacts AudioPredicates.

Section Runs.
Variable trial : Trial.
Variable browser : Browser.
Local Abbreviation step := (step trial browser).
Local Abbreviation run := (run trial browser).
Local Abbreviation trial_start := (trial_start trial browser).

Lemma forallb_remove_nth {A} (f : A -> bool) (i : nat) (l : list A) :
  forallb f l = true -> forallb f (remove_nth i l) = true.
Proof.
  intros H. rewrite forallb_forall in *. intros x Hx. apply H.
  unfold remove_nth in Hx. apply in_app_or in Hx. destruct Hx as [Hx|Hx].
  - rewrite <- (firstn_skipn i). apply in_or_app. auto.
  - rewrite <- (firstn_skipn (S i)). apply in_or_app. auto.
Qed.

Lemma step_untimed (s : State) (e : Event) :
  recording_duration trial = None ->
  untimed s -> untimed (step s e).
Proof.
  intros Hrd Hu. unfold untimed in *.
  destruct e; unfold_handlers; rewrite ?Hrd; split_cases;
    rewrite ?forallb_app; cbn; rewrite ?Hu; try reflexivity.
  all: try (rewrite forallb_remove_nth by assumption; reflexivity).
Qed.

Lemma revoke_named (s : State) :
  (object_urls (page s) = [] \/
   exists u d, object_urls (page s) = [(u, d)] /\
               audio_url (this s) = Some u) ->
  object_urls (page (revokeObjectURL (audio_url (this s)) s)) = [].
Proof.
  intros [H|(u & d & H & Ha)]; unfold revokeObjectURL.
  - destruct (audio_url (this s)); cbn; rewrite H; reflexivity.
  - rewrite Ha. cbn. rewrite H. cbn. rewrite Nat.eqb_refl. reflexivity.
Qed.

Lemma same_recording_url_inv (s s' : State) :
  same_recording s s' -> url_inv trial s -> url_inv trial s'.
Proof.
  intros (H1 & H2 & H3 & H4 & H5 & H6 & H7 & H8) (Hu & Hf & Hp).
  unfold url_inv, phase. rewrite H1, H2, H3, H4, H5, H6.
  split; [exact Hu|]. split.
  - intros H. apply Hf. intros Hn. apply H, H7, Hn.
  - intros Hl. specialize (Hp Hl). unfold phase in Hp.
    destruct (display (page s)), (display (page s')); cbn in H8;
      try contradiction; exact Hp.
Qed.

Lemma same_recording_refl (s : State) : same_recording s s.
Proof.
  unfold same_recording. repeat split; auto.
  destruct (display (page s)); exact I.
Qed.

Lemma same_recording_trans (s1 s2 s3 : State) :
  same_recording s1 s2 -> same_recording s2 s3 -> same_recording s1 s3.
Proof.
  intros (H1 & H2 & H3 & H4 & H5 & H6 & H7 & H8)
         (K1 & K2 & K3 & K4 & K5 & K6 & K7 & K8).
  unfold same_recording. rewrite K1, K2, K3, K4, K5, K6, K7.
  repeat split; try tauto.
  destruct (display (page s1)), (display (page s2)), (display (page s3));
    cbn in *; tauto.
Qed.

Ltac same :=
  unfold same_recording; cbn; repeat split; auto;
  repeat match goal with
  | H : display _ = _ |- _ => rewrite H; clear H
  end;
  first [ exact I
        | match goal with
          | |- same_kind ?d ?d => destruct d; exact I
          end ].

Lemma logAmplitude_same (w : nat) (s : State) :
  same_recording s (logAmplitude trial browser w s).
Proof.
  unfold logAmplitude, resolve_watch, reject_watch, setTimeout.
  split_cases; same.
Qed.

Lemma run_callback_same (c : Callback) (s : State) :
  c <> RecordingTimeout ->
  same_recording s (run_callback trial browser c s).
Proof.
  intros Hc. destruct c; [| congruence | apply logAmplitude_same |].
  - unfold run_callback, hideStimulus. split_cases; same.
  - unfold run_callback, alert_callback, showAlertImage. split_cases; same.
Qed.

Lemma timer_not_recording_timeout (s : State) (i : nat) (due : Z)
      (c : Callback) :
  untimed s -> nth_error (timeout_handlers (page s)) i = Some (due, c) ->
  c <> RecordingTimeout.
Proof.
  intros Hu Hn ->. unfold untimed in Hu. rewrite forallb_forall in Hu.
  specialize (Hu _ (nth_error_In _ _ Hn)). discriminate.
Qed.

Lemma length_le_1_remove {A} (l : list A) (i : nat) (a : A) :
  (List.length l <= 1)%nat -> nth_error l i = Some a -> remove_nth i l = [].
Proof.
  destruct l as [|x [|y l]]; cbn; intros Hl Hn.
  - destruct i; discriminate.
  - destruct i as [|[|i]]; [reflexivity|discriminate|discriminate].
  - lia.
Qed.

Ltac use_shape :=
  repeat match goal with
  | H : _ /\ _ |- _ => destruct H
  | H : exists _, _ |- _ => destruct H
  | H : _ \/ _ |- _ => destruct H
  end.

Ltac rew :=
  repeat match goal with
  | H : ?f ?x = _ |- context [?f ?x] => rewrite H
  end;
  rewrite ?Nat.eqb_refl.

Ltac pick :=
  cbn; auto; try congruence; try lia;
  try solve [ repeat split; cbn; auto; try congruence; try lia
            | left; repeat split; cbn; auto; try congruence; try lia
            | right; left; repeat split; cbn; auto; try congruence; try lia
            | right; right; repeat split; cbn; auto; try congruence; try lia
            | right; repeat split; cbn; auto; try congruence; try lia
            | right; eexists; eexists; split; reflexivity ].

Ltac strip_log :=
  repeat match goal with
  | |- url_inv _ (logAmplitude _ _ _ _) =>
      eapply same_recording_url_inv; [apply logAmplitude_same|]
  end.

Ltac brute :=
  unfold step, finish_trial_click, record_again_click, startRecording,
    logAmplitudeUntilThresholdReached, start_event_handler, reader_load,
    after_stop, stop_event_handler, stopRecording, recorder_stop, endTrial,
    showPlaybackControls, showDisplay, revokeObjectURL, clearAllTimeouts,
    setTimeout;
  cbn; rew; cbn;
  repeat (split_case; cbn; rew; cbn);
  strip_log;
  unfold url_inv, phase; cbn; rew; cbn;
  repeat match goal with
  | H1 : (List.length ?l <= 1)%nat, H2 : nth_error ?l _ = Some _ |- _ =>
      rewrite (length_le_1_remove _ _ _ H1 H2) in *; clear H2
  end;
  try (split; [|split]); pick;
  try solve [ intros Hne;
              match goal with
              | Hf : finished _ <> None -> _ |- _ => apply Hf in Hne
              end;
              split; [reflexivity|]; intros Hsv; apply Hne in Hsv;
              congruence ].

Lemma step_url_inv (s : State) (e : Event) :
  url_inv trial s -> untimed s -> enabled s e = true ->
  url_inv trial (step s e).
Proof.
  intros Hinv Hun Hen.
  assert (Hframe : forall s', same_recording s s' -> url_inv trial s').
  { intros s' H. apply (same_recording_url_inv s s' H Hinv). }
  destruct e as [d|w|ts|data| |i| | | | |i].
  1, 2, 4, 7: apply Hframe; unfold AudioResponse.step, data_available_handler,
    resize_callback; split_cases; same.
  7: { cbn in Hen. unfold AudioResponse.step.
    destruct (nth_error (timeout_handlers (page s)) i) as [[due c]|] eqn:Hn;
      [|assumption].
    apply Hframe. eapply same_recording_trans;
      [|apply run_callback_same, (timer_not_recording_timeout s i due c Hun Hn)].
    same. }
  all: destruct Hinv as (Hu & Hf & Hp).
  all: destruct (listening (recorder s)) eqn:Hl.
  all: try (specialize (Hp eq_refl); unfold phase in Hp;
    assert (Hfin : finished (out s) = None)
      by (destruct (finished (out s)); [|reflexivity];
          destruct Hf as [Hf _]; congruence);
    clear Hf;
    destruct (display (page s)) eqn:Hd; [| | |destruct Hp]).
  all: use_shape.
  all: revert Hen; cbn; rew; cbn; try discriminate; intros Hen.
  all: brute.
Qed.

Lemma trial_start_url_inv (t0 : Z) (w0 : list byte) :
  url_inv trial (trial_start t0 w0).
Proof.
  unfold AudioResponse.trial_start, startRecording,
    logAmplitudeUntilThresholdReached. cbn. strip_log.
  unfold url_inv, phase. cbn. split; [auto|]. split; [congruence|auto].
Qed.

Lemma trial_start_untimed (t0 : Z) (w0 : list byte) :
  untimed (trial_start t0 w0).
Proof.
  unfold AudioResponse.trial_start, untimed. unfold_handlers. split_cases;
    reflexivity.
Qed.

(** X11: in a trial without [recording_duration] at most one object URL is
    live at any time, and it is the one [audio_url] names: each is revoked
    before the next is made.  A trial that has ended without
    [save_audio_url] leaves none. *)
Theorem at_most_one_object_url
        (t0 : Z) (w0 : list byte) (es : list Event) (s : State) :
  recording_duration trial = None ->
  run (trial_start t0 w0) es = Some s ->
  (object_urls (page s) = [] \/
   exists u d, object_urls (page s) = [(u, d)] /\
               audio_url (this s) = Some u) /\
  (finished (out s) <> None -> save_audio_url trial = false ->
   object_urls (page s) = []).
Proof.
  intros Hrd Hrun.
  assert (H : url_inv trial s /\ untimed s).
  { revert Hrun.
    apply (run_invariant trial browser
             (fun x => url_inv trial x /\ untimed x)).
    - intros x e [Hi Hu] Hen. split.
      + apply step_url_inv; assumption.
      + apply step_untimed; assumption.
    - split; [apply trial_start_url_inv|apply trial_start_untimed]. }
  destruct H as [(Hu & Hf & _) _]. split; [exact Hu|].
  intros Hfin. apply Hf, Hfin.
Qed.


End Runs.

Import Scenario.

(** Two attempts and continue: both URLs are revoked. *)
Lemma at_most_one_object_url_witness :
  exists s,
    recording_duration untimed_review_trial = None /\
    run untimed_review_trial chrome
        (trial_start untimed_review_trial chrome 0 quiet)
        two_attempts_then_continue = Some s /\
    (object_urls (page s) = [] \/
     exists u d, object_urls (page s) = [(u, d)] /\
                 audio_url (this s) = Some u) /\
    (finished (out s) <> None -> save_audio_url untimed_review_trial = false ->
     object_urls (page s) = []).
Proof.
  eexists. split; [reflexivity|]. split; [vm_compute; reflexivity|].
  apply (at_most_one_object_url untimed_review_trial chrome 0 quiet
           two_attempts_then_continue).
  - reflexivity.
  - vm_compute. reflexivity.
Defined.

(** With a recording duration the timer of an earlier attempt can stop a
    later one out of turn; the URL of that recording is then never
    revoked and outlives the trial. *)
Example stale_timer_leaks_an_object_url :
  exists s d,
    run review_trial chrome (trial_start review_trial chrome 0 quiet)
        stale_timer_then_continue = Some s /\
    finished (out s) = Some d /\
    save_audio_url review_trial = false /\
    audio_url (this s) = Some 2%nat /\
    object_urls (page s) = [(1%nat, [])].
Proof.
  eexists. eexists. split; [vm_compute; reflexivity|].
  repeat split; reflexivity.
Qed.

End ObjectUrls.

(** ** Runs of the typing plugins *)

Module TypingFacts.

Import String ImageKeyboard TypingPredicates.

(** Case analysis on the innermost scrutinee of the goal. *)
Ltac split_case :=
  match goal with
  | |- context [match ?x with _ => _ end] =>
      lazymatch x with
      | context [match _ with _ => _ end] => fail
      | _ => destruct x eqn:?
      end
  end.

Ltac split_cases := repeat (cbn; split_case); cbn.

Section Runs.
Variable variant : Variant.
Variable trial : Trial.
Local Abbreviation step := (step variant trial).
Local Abbreviation run := (run variant trial).
Local Abbreviation trial_start := (trial_start trial).
Local Abbreviation after_response := (after_response variant trial).
Local Abbreviation edit_buffers := (edit_buffers variant trial).
Local Abbreviation store_response := (store_response variant trial).
Local Abbreviation on_enter := (on_enter trial).
Local Abbreviation before_key := (before_key variant).

Lemma typing_run_cons (s s' : State) (e : Event) (es : list Event) :
  run s (e :: es) = Some s' ->
  enabled s e = true /\ run (step s e) es = Some s'.
Proof.
  cbn [ImageKeyboard.run]. destruct (enabled s e); [auto|discriminate].
Qed.

Lemma typing_run_invariant (P : State -> Prop) :
  (forall s e, P s -> enabled s e = true -> P (step s e)) ->
  forall es s s', P s -> run s es = Some s' -> P s'.
Proof.
  intros Hstep. induction es as [|e es IH]; intros s s' Hs Hrun.
  - injection Hrun as <-. exact Hs.
  - apply typing_run_cons in Hrun. destruct Hrun as [Hen Hrun].
    apply (IH (step s e) s'); auto.
Qed.

Lemma typing_run_invariant_on (allowed : Event -> bool) (P : State -> Prop) :
  (forall s e, P s -> enabled s e = true -> allowed e = true -> P (step s e)) ->
  forall es s s', P s -> forallb allowed es = true -> run s es = Some s' -> P s'.
Proof.
  intros Hstep. induction es as [|e es IH]; intros s s' Hs Hall Hrun.
  - injection Hrun as <-. exact Hs.
  - apply typing_run_cons in Hrun. destruct Hrun as [Hen Hrun].
    cbn in Hall. apply andb_true_iff in Hall. destruct Hall as [He Hes].
    apply (IH (step s e) s'); auto.
Qed.

Lemma trial_start_cases (t0 : Z) (P : State -> Prop) :
  (forall s, startTime s = t0 -> now s = t0 -> words s = [] ->
             buffer s = EmptyString -> wholebuffer s = EmptyString ->
             responses s = [] -> triggered s = false -> eventTime s = None ->
             stimulus_swapped s = false -> listening s = true ->
             finished s = None ->
             (timeout_handlers s = [] \/
              exists d, trial_duration trial = Some d /\
                        timeout_handlers s = [(t0 + Z.max 0 d, EndTrial)]) ->
             P s) ->
  P (trial_start t0).
Proof.
  intros H. unfold ImageKeyboard.trial_start.
  destruct (trial_duration trial) eqn:E; apply H; cbn; auto.
  right. eauto.
Qed.

(** *** What each part of the handler leaves alone *)

Lemma edit_buffers_frame (k : string) (s : State) :
  startTime (edit_buffers k s) = startTime s /\
  now (edit_buffers k s) = now s /\
  responses (edit_buffers k s) = responses s /\
  triggered (edit_buffers k s) = triggered s /\
  timeout_handlers (edit_buffers k s) = timeout_handlers s /\
  listening (edit_buffers k s) = listening s /\
  finished (edit_buffers k s) = finished s.
Proof.
  unfold ImageKeyboard.edit_buffers. split_cases; repeat split; congruence.
Qed.

Lemma edit_buffers_enter (k : string) (s : State) :
  (k =? "enter")%string = true -> edit_buffers k s = s.
Proof.
  intros H. unfold ImageKeyboard.edit_buffers. rewrite H, orb_true_r.
  reflexivity.
Qed.

Lemma on_enter_frame (s : State) :
  startTime (on_enter s) = startTime s /\
  now (on_enter s) = now s /\
  responses (on_enter s) = responses s /\
  triggered (on_enter s) = triggered s /\
  buffer (on_enter s) = buffer s /\
  wholebuffer (on_enter s) = wholebuffer s /\
  eventTime (on_enter s) = eventTime s /\
  stimulus_swapped (on_enter s) = stimulus_swapped s.
Proof.
  unfold ImageKeyboard.on_enter. split_cases; repeat split; congruence.
Qed.

Lemma after_response_eq (k : string) (s : State) :
  after_response k s =
  store_response k (now s - startTime s)
    (edit_buffers k
       (if (k =? "enter")%string then on_enter (before_key s)
        else before_key s)).
Proof. unfold ImageKeyboard.after_response, TypingPredicates.before_key. reflexivity. Qed.

Lemma after_response_frame (k : string) (s : State) :
  startTime (after_response k s) = startTime s /\
  now (after_response k s) = now s /\
  responses (after_response k s) =
  responses s ++ [{| key := k; response_rt := now s - startTime s |}].
Proof.
  rewrite after_response_eq.
  set (s1 := if (k =? "enter")%string then _ else _).
  assert (H1 : startTime s1 = startTime s /\ now s1 = now s /\
               responses s1 = responses s).
  { unfold s1. destruct (k =? "enter")%string.
    - destruct (on_enter_frame (before_key s)) as (-> & -> & -> & _).
      unfold TypingPredicates.before_key. destruct variant; repeat split; reflexivity.
    - unfold TypingPredicates.before_key. destruct variant; repeat split; reflexivity. }
  destruct H1 as (Ha & Hb & Hc).
  destruct (edit_buffers_frame k s1) as (Ha' & Hb' & Hc' & _).
  cbn. rewrite Ha', Hb', Hc', Ha, Hb, Hc. repeat split; reflexivity.
Qed.

Lemma before_key_frame (s : State) :
  startTime (before_key s) = startTime s /\
  now (before_key s) = now s /\
  words (before_key s) = words s /\
  buffer (before_key s) = buffer s /\
  wholebuffer (before_key s) = wholebuffer s /\
  responses (before_key s) = responses s /\
  triggered (before_key s) = triggered s /\
  eventTime (before_key s) = eventTime s /\
  stimulus_swapped (before_key s) = stimulus_swapped s /\
  timeout_handlers (before_key s) = timeout_handlers s /\
  listening (before_key s) = listening s /\
  finished (before_key s) = finished s.
Proof. unfold TypingPredicates.before_key. destruct variant; repeat split; reflexivity. Qed.

(** *** The result is final *)

Lemma unfinished_final_inv (s : State) : finished s = None -> final_inv s.
Proof.
  intros H. unfold final_inv. rewrite H. split; [congruence|discriminate].
Qed.

Lemma listening_unfinished (s : State) :
  final_inv s -> listening s = true -> finished s = None.
Proof.
  intros [H _] Hl. destruct (finished s) eqn:E; [|reflexivity].
  destruct H as [H _]; congruence.
Qed.

Lemma timer_unfinished (s : State) (i : nat) (c : Z * Callback) :
  final_inv s -> nth_error (timeout_handlers s) i = Some c ->
  finished s = None.
Proof.
  intros [H _] Hn. destruct (finished s) eqn:E; [|reflexivity].
  destruct H as [_ H]; [congruence|]. rewrite H in Hn.
  destruct i; discriminate.
Qed.

Lemma end_trial_final_inv (s : State) : final_inv (end_trial s).
Proof.
  unfold final_inv. cbn. split; [auto|].
  intros d H. injection H as <-. auto.
Qed.

Lemma on_enter_cases (s : State) :
  (trigger_end trial = true /\
   words (on_enter s) = words s /\
   finished (on_enter s) = finished s /\
   listening (on_enter s) = listening s /\
   timeout_handlers (on_enter s) =
   timeout_handlers s ++
   [(now s + Z.max 0 (correction_delay trial),
     if triggered s then EndTrial else FillBlack)]) \/
  (trigger_end trial = false /\ on_enter s = end_trial s).
Proof.
  unfold ImageKeyboard.on_enter.
  destruct (trigger_end trial); [left|right; auto].
  destruct (triggered s); cbn; auto.
Qed.

Lemma store_response_final_inv (k : string) (rt : Z) (s : State) :
  final_inv s -> final_inv (store_response k rt s).
Proof. unfold final_inv. cbn. auto. Qed.

Lemma after_response_final_inv (k : string) (s : State) :
  final_inv s -> listening s = true -> final_inv (after_response k s).
Proof.
  intros Hinv Hl. pose proof (listening_unfinished s Hinv Hl) as Hf.
  rewrite after_response_eq. apply store_response_final_inv.
  destruct (before_key_frame s) as (_ & _ & _ & _ & _ & _ & _ & _ & _ & _ & _ & Hb).
  rewrite Hf in Hb.
  destruct (k =? "enter")%string eqn:Ek.
  - rewrite edit_buffers_enter by assumption.
    destruct (on_enter_cases (before_key s)) as [(_ & _ & H & _)|(_ & ->)].
    + apply unfinished_final_inv. congruence.
    + apply end_trial_final_inv.
  - apply unfinished_final_inv.
    destruct (edit_buffers_frame k (before_key s)) as (_ & _ & _ & _ & _ & _ & ->).
    assumption.
Qed.

Lemma step_final_inv (s : State) (e : Event) :
  final_inv s -> enabled s e = true -> final_inv (step s e).
Proof.
  intros Hinv Hen. destruct e as [d|k|i].
  - unfold final_inv in *. cbn. exact Hinv.
  - apply after_response_final_inv; assumption.
  - cbn in Hen. unfold ImageKeyboard.step.
    destruct (nth_error (timeout_handlers s) i) as [[due c]|] eqn:Hn;
      [|assumption].
    pose proof (timer_unfinished s i _ Hinv Hn) as Hf.
    destruct c; cbn.
    + apply end_trial_final_inv.
    + apply unfinished_final_inv. cbn. assumption.
Qed.

Lemma trial_start_final_inv (t0 : Z) : final_inv (trial_start t0).
Proof.
  apply trial_start_cases. intros s _ _ _ _ _ _ _ _ _ _ Hf _.
  apply unfinished_final_inv, Hf.
Qed.



(** *** The response log *)


Lemma timer_frame (s : State) (i : nat) :
  startTime (step s (TimerFires i)) = startTime s /\
  now (step s (TimerFires i)) = now s /\
  responses (step s (TimerFires i)) = responses s /\
  triggered (step s (TimerFires i)) = triggered s /\
  buffer (step s (TimerFires i)) = buffer s /\
  wholebuffer (step s (TimerFires i)) = wholebuffer s /\
  eventTime (step s (TimerFires i)) = eventTime s /\
  stimulus_swapped (step s (TimerFires i)) = stimulus_swapped s.
Proof.
  unfold ImageKeyboard.step.
  destruct (nth_error (timeout_handlers s) i) as [[due c]|];
    [destruct c|]; cbn; repeat split; reflexivity.
Qed.





(** *** The swap of the stimulus *)

Lemma edit_buffers_swap (k : string) (s : State) :
  (eventTime (edit_buffers k s) = eventTime s /\
   stimulus_swapped (edit_buffers k s) = stimulus_swapped s) \/
  (triggered s = true /\ space_allowed trial = true /\
   k = " "%string /\
   eventTime (edit_buffers k s) = Some (swap_eventTime variant s) /\
   stimulus_swapped (edit_buffers k s) = true).
Proof.
  unfold ImageKeyboard.edit_buffers.
  destruct (_ || _ || _); [left; auto|].
  destruct (_ || _); [left; auto|].
  destruct (k =? " ")%string eqn:Ek; [|left; auto].
  apply String.eqb_eq in Ek.
  destruct (space_allowed trial); [|left; auto].
  destruct (triggered s); cbn; [right|left]; auto.
Qed.

Lemma store_response_triggered (k : string) (rt : Z) (s : State) :
  triggered s = true -> triggered (store_response k rt s) = true.
Proof. intros H. cbn. rewrite H. destruct (trigger_reached _ _ _); reflexivity. Qed.

Lemma after_response_swap (k : string) (s : State) :
  (eventTime (after_response k s) = eventTime s /\
   stimulus_swapped (after_response k s) = stimulus_swapped s) \/
  (triggered s = true /\ space_allowed trial = true /\ k = " "%string /\
   eventTime (after_response k s) = Some (swap_eventTime variant s) /\
   stimulus_swapped (after_response k s) = true).
Proof.
  rewrite after_response_eq. cbn [eventTime stimulus_swapped store_response].
  destruct (before_key_frame s)
    as (Hst & Hnow & _ & _ & _ & _ & Htr & Hev & Hsw & _).
  destruct (k =? "enter")%string eqn:Ek.
  - rewrite edit_buffers_enter by assumption. left.
    destruct (on_enter_frame (before_key s))
      as (_ & _ & _ & _ & _ & _ & -> & ->). auto.
  - destruct (edit_buffers_swap k (before_key s))
      as [[-> ->]|(H1 & H2 & H3 & -> & ->)]; [left; auto|right].
    repeat split; try congruence.
    unfold swap_eventTime. rewrite Hst, Hnow. reflexivity.
Qed.

Lemma after_response_triggered (k : string) (s : State) :
  triggered s = true -> triggered (after_response k s) = true.
Proof.
  intros H. rewrite after_response_eq. apply store_response_triggered.
  destruct (edit_buffers_frame k
              (if (k =? "enter")%string then on_enter (before_key s)
               else before_key s)) as (_ & _ & _ & -> & _).
  destruct (before_key_frame s) as (_ & _ & _ & _ & _ & _ & Htr & _).
  destruct (k =? "enter")%string; [|congruence].
  destruct (on_enter_frame (before_key s)) as (_ & _ & _ & -> & _).
  congruence.
Qed.

Lemma step_eventTime_inv (s : State) (e : Event) :
  eventTime_inv variant s -> enabled s e = true ->
  eventTime_inv variant (step s e).
Proof.
  intros (Ht & Hev) Hen. unfold eventTime_inv. destruct e as [d|k|i].
  - cbn in Hen. apply Z.leb_le in Hen. cbn. split; [lia|exact Hev].
  - change (step s (KeyPress k)) with (after_response k s).
    destruct (after_response_frame k s) as (-> & -> & _).
    split; [assumption|].
    destruct (after_response_swap k s) as [[-> _]|(_ & _ & _ & -> & _)];
      [exact Hev|].
    intros t H. injection H as <-. unfold swap_eventTime.
    destruct variant; lia.
  - destruct (timer_frame s i) as (-> & -> & _ & _ & _ & _ & -> & _). auto.
Qed.

(** X14: [eventTime] has one sign per variant on every run: the logger's is
    never negative, the earlier variant's never positive. *)
Theorem eventTime_sign (t0 : Z) (es : list Event) (s : State) (t : Z) :
  run (trial_start t0) es = Some s ->
  eventTime s = Some t ->
  match variant with Logger => 0 <= t | Earlier => t <= 0 end.
Proof.
  intros Hrun. 
  assert (H : eventTime_inv variant s).
  { revert Hrun. apply (typing_run_invariant (eventTime_inv variant)).
    - apply step_eventTime_inv.
    - apply trial_start_cases. intros x Ha Hb _ _ _ _ _ He _ _ _ _.
      unfold eventTime_inv. rewrite Ha, Hb, He. split; [lia|discriminate]. }
  destruct H as [_ H]. apply H.
Qed.



(** *** The end of the trial under [trigger_end] *)

Lemma after_response_gate (k : string) (s : State) :
  trigger_end trial = true ->
  gate_inv s -> gate_inv (after_response k s).
Proof.
  intros Hend Hg. unfold gate_inv.
  intros Hpre. 
  destruct (triggered s) eqn:Htr;
    [apply after_response_triggered, Htr|].
  exfalso.
  assert (Hno : forall due, ~ In (due, EndTrial) (timeout_handlers s)).
  { intros due Hin. unfold gate_inv in Hg. rewrite Hg in Htr; [discriminate|].
    left. eauto. }
  assert (Hfin : finished s = None).
  { destruct (finished s) eqn:E; [|reflexivity].
    unfold gate_inv in Hg. rewrite Hg in Htr; [discriminate|].
    right. congruence. }
  revert Hpre. rewrite after_response_eq.
  cbn [timeout_handlers finished store_response].
  set (s1 := if (k =? "enter")%string then _ else _).
  destruct (edit_buffers_frame k s1) as (_ & _ & _ & _ & -> & _ & ->).
  destruct (before_key_frame s)
    as (_ & _ & _ & _ & _ & _ & Htr' & _ & _ & Hti & _ & Hfi).
  unfold s1. destruct (k =? "enter")%string.
  - destruct (on_enter_cases (before_key s))
      as [(_ & _ & -> & _ & ->)|(Hte & _)].
    + rewrite Htr', Htr, Hti, Hfi. intros [[due Hin]|H]; [|congruence].
      apply in_app_or in Hin. destruct Hin as [Hin|[Hin|[]]].
      * eapply Hno, Hin.
      * discriminate.
    + congruence.
  - rewrite Hti, Hfi. intros [[due Hin]|H]; [|congruence].
    eapply Hno, Hin.
Qed.

Lemma step_gate_inv (s : State) (e : Event) :
  trigger_end trial = true ->
  gate_inv s -> enabled s e = true -> gate_inv (step s e).
Proof.
  intros Hend Hg Hen. destruct e as [d|k|i].
  - exact Hg.
  - apply after_response_gate; assumption.
  - cbn in Hen. unfold ImageKeyboard.step.
    destruct (nth_error (timeout_handlers s) i) as [[due c]|] eqn:Hn;
      [|assumption].
    unfold gate_inv in *. destruct c; cbn.
    + intros _. apply Hg. left. exists due. eapply nth_error_In, Hn.
    + intros [[due' Hin]|H]; apply Hg; [left|right; assumption].
      exists due'. eapply AudioResponseRuns.in_remove_nth, Hin.
Qed.

(** X16: with [trigger_end] and no [trial_duration], the trial ends only after
    a trigger was typed: enter before that only colours the text. *)
Theorem trigger_end_gates_the_end (t0 : Z) (es : list Event) (s : State) :
  trigger_end trial = true ->
  trial_duration trial = None ->
  run (trial_start t0) es = Some s ->
  finished s <> None ->
  triggered s = true.
Proof.
  intros Hend Hdur Hrun Hfin.
  assert (H : gate_inv s).
  { revert Hrun. apply (typing_run_invariant gate_inv).
    - intros x e. apply step_gate_inv, Hend.
    - apply trial_start_cases.
      intros x _ _ _ _ _ _ _ _ _ _ Hf [Ht|(d & Hd & _)]; [|congruence].
      unfold gate_inv. rewrite Ht, Hf. intros [[due []]|H]; congruence. }
  apply H. right. assumption.
Qed.

Lemma step_stays_finished (s : State) (e : Event) :
  finished s <> None -> finished (step s e) <> None.
Proof.
  intros Hf. destruct e as [d|k|i].
  - exact Hf.
  - change (step s (KeyPress k)) with (after_response k s).
    rewrite after_response_eq. cbn [finished store_response].
    set (s1 := if (k =? "enter")%string then _ else _).
    destruct (edit_buffers_frame k s1) as (_ & _ & _ & _ & _ & _ & ->).
    destruct (before_key_frame s)
      as (_ & _ & _ & _ & _ & _ & _ & _ & _ & _ & _ & Hfi).
    unfold s1. destruct (k =? "enter")%string; [|congruence].
    destruct (on_enter_cases (before_key s)) as [(_ & _ & -> & _)|(_ & ->)];
      [congruence|discriminate].
  - unfold ImageKeyboard.step.
    destruct (nth_error (timeout_handlers s) i) as [[due c]|]; [|assumption].
    destruct c; [discriminate|assumption].
Qed.

Lemma run_stays_finished (es : list Event) (s s' : State) :
  finished s <> None -> run s es = Some s' -> finished s' <> None.
Proof.
  apply (typing_run_invariant (fun x => finished x <> None)).
  intros x e Hx _. apply step_stays_finished, Hx.
Qed.

Lemma enter_finishes (s : State) :
  trigger_end trial = false ->
  finished (step s (KeyPress "enter")) <> None.
Proof.
  intros Hend.
  change (step s (KeyPress "enter")) with (after_response "enter" s).
  rewrite after_response_eq, edit_buffers_enter by reflexivity.
  cbn [finished store_response].
  change ("enter" =? "enter")%string with true. cbv iota.
  destruct (on_enter_cases (before_key s)) as [(H & _)|(_ & ->)];
    [congruence|discriminate].
Qed.

(** X17: without [trigger_end], a trial in which enter has been pressed has
    ended, whatever else was typed before or happens after. *)
Theorem first_enter_ends_the_trial (es : list Event) (s s' : State) :
  trigger_end trial = false ->
  run s es = Some s' ->
  In "enter"%string (pressed es) ->
  finished s' <> None.
Proof.
  intros Hend. revert s. induction es as [|e es IH]; intros s Hrun Hin.
  - destruct Hin.
  - apply typing_run_cons in Hrun. destruct Hrun as [_ Hrun].
    destruct e as [d|k|i]; [apply (IH _ Hrun Hin)| |apply (IH _ Hrun Hin)].
    destruct Hin as [->|Hin]; [|apply (IH _ Hrun Hin)].
    apply (run_stays_finished es _ _ (enter_finishes s Hend) Hrun).
Qed.

(** *** The end of the trial by [trial_duration] *)

Lemma step_deadline_inv (t0 : Z) (s : State) (e : Event) :
  deadline_inv trial t0 s -> enabled s e = true -> no_enter e = true ->
  deadline_inv trial t0 (step s e).
Proof.
  intros [Ht Hf] Hen Hne. unfold deadline_inv. destruct e as [d|k|i].
  - cbn in Hen. apply Z.leb_le in Hen. cbn. split; [exact Ht|].
    intros H. destruct (Hf H) as (d' & Hd & Hle). exists d'.
    split; [assumption|lia].
  - cbn in Hne. apply negb_true_iff in Hne.
    change (step s (KeyPress k)) with (after_response k s).
    destruct (after_response_frame k s) as (_ & -> & _).
    rewrite after_response_eq, Hne.
    cbn [finished timeout_handlers store_response].
    destruct (edit_buffers_frame k (before_key s))
      as (_ & _ & _ & _ & -> & _ & ->).
    destruct (before_key_frame s)
      as (_ & _ & _ & _ & _ & _ & _ & _ & _ & -> & _ & ->).
    auto.
  - cbn in Hen. unfold ImageKeyboard.step.
    destruct (nth_error (timeout_handlers s) i) as [[due c]|] eqn:Hn;
      [|auto].
    apply Z.leb_le in Hen.
    destruct (Ht due c (nth_error_In _ _ Hn)) as (d & Hd & ->).
    destruct c; cbn.
    + split; [intros ? ? []|]. intros _. eauto.
    + split; [|exact Hf]. intros due' c' Hin.
      apply (Ht due' c'). eapply AudioResponseRuns.in_remove_nth, Hin.
Qed.

(** X18: a trial in which enter was never pressed ends only by its
    [trial_duration], and not before that has passed. *)
Theorem trial_duration_is_kept_without_enter (t0 : Z) (es : list Event)
    (s : State) :
  forallb no_enter es = true ->
  run (trial_start t0) es = Some s ->
  finished s <> None ->
  exists d, trial_duration trial = Some d /\ t0 + Z.max 0 d <= now s.
Proof.
  intros Hne Hrun Hfin.
  assert (H : deadline_inv trial t0 s).
  { revert Hne Hrun.
    apply (typing_run_invariant_on no_enter (deadline_inv trial t0)).
    - apply step_deadline_inv.
    - apply trial_start_cases.
      intros x _ _ _ _ _ _ _ _ _ _ Hf [Ht|(d & Hd & Ht)];
        unfold deadline_inv; rewrite Ht, Hf.
      + split; [intros ? ? []|congruence].
      + split; [|congruence]. intros due c [Hin|[]].
        injection Hin as <- <-. eauto. }
  apply H, Hfin.
Qed.

(** *** Words and whole text *)


Lemma append_empty_r (a : string) : (a ++ "")%string = a.
Proof. induction a as [|x a IH]; cbn; [reflexivity|]. rewrite IH. reflexivity. Qed.




Lemma edit_buffers_words (k : string) (s : State) :
  words (edit_buffers k s) = words s \/
  (space_allowed trial = true /\ k = " "%string /\
   words (edit_buffers k s) = words s ++ [buffer s]).
Proof.
  unfold ImageKeyboard.edit_buffers.
  destruct (_ || _ || _); [left; auto|].
  destruct (_ || _); [left; auto|].
  destruct (k =? " ")%string eqn:Ek; [|left; auto].
  apply String.eqb_eq in Ek.
  destruct (space_allowed trial); [right|left]; auto.
Qed.



Lemma edit_buffers_nospace (k : string) (s : State) :
  space_allowed trial = false ->
  buffer s = wholebuffer s ->
  buffer (edit_buffers k s) = wholebuffer (edit_buffers k s).
Proof.
  intros Hsp H. unfold ImageKeyboard.edit_buffers. rewrite Hsp.
  destruct (_ || _ || _); [assumption|].
  destruct (_ || _); [cbn; congruence|].
  destruct (k =? " ")%string; cbn; congruence.
Qed.

Lemma step_nospace_inv (s : State) (e : Event) :
  space_allowed trial = false ->
  final_inv s -> nospace_inv s -> enabled s e = true ->
  nospace_inv (step s e).
Proof.
  intros Hsp Hfinal (Heq & Hrun & Hend) Hen. unfold nospace_inv.
  destruct e as [d|k|i].
  - cbn. auto.
  - cbn in Hen.
    pose proof (listening_unfinished s Hfinal Hen) as Hf.
    specialize (Hrun Hf).
    change (step s (KeyPress k)) with (after_response k s).
    rewrite after_response_eq.
    cbn [finished words buffer wholebuffer store_response].
    destruct (before_key_frame s)
      as (_ & _ & Hwo & Hbu & Hwh & _ & _ & _ & _ & _ & _ & Hfi).
    destruct (k =? "enter")%string eqn:Ek.
    + rewrite edit_buffers_enter by assumption.
      destruct (on_enter_frame (before_key s))
        as (_ & _ & _ & _ & Hb & Hw & _).
      destruct (on_enter_cases (before_key s))
        as [(_ & Hwo' & Hfi' & _)|(_ & Heq')].
      * rewrite Hwo', Hfi', Hb, Hw, Hwo, Hbu, Hwh, Hfi.
        split; [auto|]. split; [auto|congruence].
      * rewrite Heq'. cbn. rewrite Hwo, Hbu, Hwh, Hrun, Heq.
        split; [auto|]. split; [discriminate|auto].
    + destruct (edit_buffers_frame k (before_key s))
        as (_ & _ & _ & _ & _ & _ & ->).
      rewrite Hfi. split; [|split; [|congruence]].
      * apply edit_buffers_nospace; [assumption|congruence].
      * intros _.
        destruct (edit_buffers_words k (before_key s))
          as [->|(H & _)]; congruence.
  - cbn in Hen. unfold ImageKeyboard.step.
    destruct (nth_error (timeout_handlers s) i) as [[due c]|] eqn:Hn;
      [|auto].
    pose proof (timer_unfinished s i _ Hfinal Hn) as Hf.
    destruct c; cbn.
    + rewrite (Hrun Hf), Heq. split; [auto|]. split; [discriminate|auto].
    + auto.
Qed.

(** X20: without [space_allowed] the text is never split: the buffer is the
    whole text throughout, [words] stays empty while the trial runs and
    holds the whole text as its one entry at the end. *)
Theorem no_words_without_space_allowed (t0 : Z) (es : list Event)
    (s : State) :
  space_allowed trial = false ->
  run (trial_start t0) es = Some s ->
  buffer s = wholebuffer s /\
  match finished s with
  | None => words s = []
  | Some d => words s = [td_wholebuffer d]
  end.
Proof.
  intros Hsp Hrun.
  assert (H : final_inv s /\ nospace_inv s).
  { revert Hrun.
    apply (typing_run_invariant (fun x => final_inv x /\ nospace_inv x)).
    - intros x e [H1 H2] Hen. split.
      + apply step_final_inv; assumption.
      + apply step_nospace_inv; assumption.
    - split; [apply trial_start_final_inv|].
      apply trial_start_cases. intros x _ _ Hw Hb Hwh _ _ _ _ _ Hf _.
      unfold nospace_inv. rewrite Hw, Hb, Hwh, Hf.
      split; [auto|]. split; [auto|congruence]. }
  destruct H as [[_ Hd] (Heq & Hrunning & Hended)].
  split; [assumption|].
  destruct (finished s) as [d|] eqn:Hf.
  - destruct (Hd d eq_refl) as [-> _]. apply Hended. discriminate.
  - apply Hrunning. reflexivity.
Qed.

(** *** Backspace *)









End Runs.

(** *** The two variants side by side *)




Section Variants.
Variable trial : Trial.






End Variants.



(** The logger swaps at 200 ms and records 200. *)
Lemma eventTime_sign_witness :
  exists s,
    run Logger typing_trial (trial_start typing_trial 1000)
        trigger_then_space = Some s /\
    eventTime s = Some 200 /\
    0 <= 200.
Proof.
  eexists. split; [vm_compute; reflexivity|]. split; [reflexivity|].
  eapply (eventTime_sign Logger typing_trial 1000 trigger_then_space _ 200).
  - vm_compute. reflexivity.
  - reflexivity.
Defined.


(** The trigger word, enter, and the correction delay. *)
Lemma trigger_end_gates_the_end_witness :
  exists s,
    trigger_end gated_trial = true /\
    trial_duration gated_trial = None /\
    run Logger gated_trial (trial_start gated_trial 1000)
        trigger_enter_wait = Some s /\
    finished s <> None /\
    triggered s = true.
Proof.
  eexists. split; [reflexivity|]. split; [reflexivity|].
  split; [vm_compute; reflexivity|]. split; [discriminate|].
  apply (trigger_end_gates_the_end Logger gated_trial 1000
           trigger_enter_wait).
  - reflexivity.
  - reflexivity.
  - vm_compute. reflexivity.
  - discriminate.
Defined.

(** Enter as the last of three keys. *)
Lemma first_enter_ends_the_trial_witness :
  exists s,
    trigger_end typing_trial = false /\
    run Earlier typing_trial (trial_start typing_trial 1000)
        trigger_space_enter = Some s /\
    In "enter"%string (pressed trigger_space_enter) /\
    finished s <> None.
Proof.
  eexists. split; [reflexivity|]. split; [vm_compute; reflexivity|].
  split; [vm_compute; auto|].
  apply (first_enter_ends_the_trial Earlier typing_trial trigger_space_enter
           (trial_start typing_trial 1000)).
  - reflexivity.
  - vm_compute. reflexivity.
  - vm_compute. auto.
Defined.

(** One key, then the five seconds run out. *)
Lemma trial_duration_is_kept_without_enter_witness :
  exists s,
    forallb no_enter key_then_deadline = true /\
    run Logger timed_typing_trial (trial_start timed_typing_trial 1000)
        key_then_deadline = Some s /\
    finished s <> None /\
    exists d, trial_duration timed_typing_trial = Some d /\
              1000 + Z.max 0 d <= now s.
Proof.
  eexists. split; [reflexivity|]. split; [vm_compute; reflexivity|].
  split; [discriminate|].
  apply (trial_duration_is_kept_without_enter Logger timed_typing_trial 1000
           key_then_deadline).
  - reflexivity.
  - vm_compute. reflexivity.
  - discriminate.
Defined.


(** [a], space, [b], enter without [space_allowed]. *)
Lemma no_words_without_space_allowed_witness :
  exists s,
    space_allowed nospace_trial = false /\
    run Logger nospace_trial (trial_start nospace_trial 1000)
        a_space_b_enter = Some s /\
    buffer s = wholebuffer s /\
    match finished s with
    | None => words s = []
    | Some d => words s = [td_wholebuffer d]
    end.
Proof.
  eexists. split; [reflexivity|]. split; [vm_compute; reflexivity|].
  apply (no_words_without_space_allowed Logger nospace_trial 1000
           a_space_b_enter).
  - reflexivity.
  - vm_compute. reflexivity.
Defined.




End TypingFacts.

(** ** The correction delay of the typing plugins *)

Module TypingDelay.

Import String ImageKeyboard TypingPredicates TypingFacts.

Section Runs.
Variable variant : Variant.
Variable trial : Trial.
Local Abbreviation step := (step variant trial).
Local Abbreviation run := (run variant trial).
Local Abbreviation trial_start := (trial_start trial).
Local Abbreviation after_response := (after_response variant trial).
Local Abbreviation edit_buffers := (edit_buffers variant trial).
Local Abbreviation store_response := (store_response variant trial).
Local Abbreviation on_enter := (on_enter trial).
Local Abbreviation before_key := (before_key variant).

Lemma after_response_timers (k : string) (s : State) :
  trigger_end trial = true ->
  finished (after_response k s) = finished s /\
  (timeout_handlers (after_response k s) = timeout_handlers s \/
   exists c,
     (k =? "enter")%string = true /\
     timeout_handlers (after_response k s) =
     timeout_handlers s ++ [(now s + Z.max 0 (correction_delay trial), c)]).
Proof.
  intros Hend. rewrite (after_response_eq variant trial).
  cbn [finished timeout_handlers ImageKeyboard.store_response].
  set (s1 := if (k =? "enter")%string then _ else _).
  destruct (edit_buffers_frame variant trial k s1)
    as (_ & _ & _ & _ & -> & _ & ->).
  destruct (before_key_frame variant s)
    as (_ & Hnow & _ & _ & _ & _ & _ & _ & _ & Hti & _ & Hfi).
  unfold s1. destruct (k =? "enter")%string; [|auto].
  destruct (on_enter_cases trial (before_key s))
    as [(_ & _ & -> & _ & ->)|(H & _)]; [|congruence].
  rewrite Hnow, Hti, Hfi. split; [reflexivity|]. right. eauto.
Qed.

Lemma step_delay_inv (t0 : Z) (s : State) (e : Event) :
  trigger_end trial = true ->
  delay_inv trial t0 s -> enabled s e = true ->
  delay_inv trial t0 (step s e).
Proof.
  intros Hend (Hst & Ht & Hf) Hen. unfold delay_inv.
  destruct e as [d|k|i].
  - cbn in Hen. apply Z.leb_le in Hen. cbn.
    split; [assumption|]. split; [assumption|].
    intros H. destruct (Hf H) as (r & Hin & Hk & Hle). exists r.
    repeat split; try assumption. lia.
  - change (step s (KeyPress k)) with (after_response k s).
    destruct (after_response_frame variant trial k s) as (-> & -> & ->).
    destruct (after_response_timers k s Hend) as (-> & Htimers).
    split; [assumption|]. split.
    + intros due Hin.
      destruct Htimers as [Heq|(c & Hk & Heq)]; rewrite Heq in Hin.
      * destruct (Ht due Hin) as (r & Hr & Hkey & Hdue). exists r.
        split; [apply in_or_app; auto|auto].
      * apply in_app_or in Hin. destruct Hin as [Hin|[Hin|[]]].
        -- destruct (Ht due Hin) as (r & Hr & Hkey & Hdue). exists r.
           split; [apply in_or_app; auto|auto].
        -- injection Hin as <- ->. apply String.eqb_eq in Hk. subst k.
           eexists. split; [apply in_or_app; right; left; reflexivity|].
           cbn. split; [reflexivity|]. lia.
    + intros H. destruct (Hf H) as (r & Hr & Hkey & Hle). exists r.
      split; [apply in_or_app; auto|auto].
  - cbn in Hen. unfold ImageKeyboard.step.
    destruct (nth_error (timeout_handlers s) i) as [[due c]|] eqn:Hn;
      [|auto].
    apply Z.leb_le in Hen. destruct c; cbn.
    + split; [assumption|]. split; [intros ? []|]. intros _.
      destruct (Ht due (nth_error_In _ _ Hn)) as (r & Hr & Hkey & ->).
      exists r. auto.
    + split; [assumption|]. split; [|assumption]. intros due' Hin.
      apply Ht. eapply AudioResponseRuns.in_remove_nth, Hin.
Qed.

(** X24: with [trigger_end] and no [trial_duration], a trial that has ended
    had an enter in its log at least [correction_delay] before: the
    feedback colour of the accepted enter is up that long. *)
Theorem correction_delay_is_kept (t0 : Z) (es : list Event) (s : State) :
  trigger_end trial = true ->
  trial_duration trial = None ->
  run (trial_start t0) es = Some s ->
  finished s <> None ->
  exists r, In r (responses s) /\ key r = "enter"%string /\
            t0 + response_rt r + Z.max 0 (correction_delay trial) <= now s.
Proof.
  intros Hend Hdur Hrun Hfin.
  assert (H : delay_inv trial t0 s).
  { revert Hrun. apply (typing_run_invariant variant trial (delay_inv trial t0)).
    - intros x e. apply step_delay_inv, Hend.
    - apply trial_start_cases.
      intros x Hs _ _ _ _ _ _ _ _ _ Hf [Ht|(d & Hd & _)]; [|congruence].
      unfold delay_inv. rewrite Ht, Hf.
      split; [assumption|]. split; [intros ? []|congruence]. }
  destruct H as (_ & _ & H). apply H, Hfin.
Qed.

End Runs.

(** Enter at 200 ms, the end 750 ms later. *)
Lemma correction_delay_is_kept_witness :
  exists s,
    trigger_end gated_trial = true /\
    trial_duration gated_trial = None /\
    run Logger gated_trial (ImageKeyboard.trial_start gated_trial 1000)
        trigger_enter_wait = Some s /\
    finished s <> None /\
    exists r, In r (responses s) /\ key r = "enter"%string /\
              1000 + response_rt r + Z.max 0 (correction_delay gated_trial)
              <= now s.
Proof.
  eexists. split; [reflexivity|]. split; [reflexivity|].
  split; [vm_compute; reflexivity|]. split; [discriminate|].
  apply (correction_delay_is_kept Logger gated_trial 1000 trigger_enter_wait).
  - reflexivity.
  - reflexivity.
  - vm_compute. reflexivity.
  - discriminate.
Defined.

End TypingDelay.

(** ** The canvas *)

Module CanvasFacts.

Import Canvas.

Ltac fields :=
  cbn [height width image_drawn ops set_height set_width set_image_drawn
       canvas_op fresh].

Lemma getHeightWidth_dimensions (trial : Trial) (img : Image) (v : Vars) :
  width (getHeightWidth trial img v) = fst (dimensions trial img) /\
  height (getHeightWidth trial img v) = snd (dimensions trial img) /\
  image_drawn (getHeightWidth trial img v) = image_drawn v /\
  ops (getHeightWidth trial img v) =
  ops v ++ [SetHeight (snd (dimensions trial img));
            SetWidth (fst (dimensions trial img))].
Proof.
  unfold dimensions, getHeightWidth.
  destruct (stimulus_height trial) as [h|], (stimulus_width trial) as [w|],
    (maintain_aspect_ratio trial); cbn; rewrite <- app_assoc;
    repeat split; reflexivity.
Qed.

(** X25: [getHeightWidth] assigns both variables on every path, whatever they
    held, and sets the canvas to the values it assigned. *)
Theorem getHeightWidth_assigns_both (trial : Trial) (img : Image)
    (v : Vars) :
  height (getHeightWidth trial img v) <> None /\
  width (getHeightWidth trial img v) <> None /\
  ops (getHeightWidth trial img v) =
  ops v ++ [SetHeight (height (getHeightWidth trial img v));
            SetWidth (width (getHeightWidth trial img v))].
Proof.
  destruct (getHeightWidth_dimensions trial img v) as (-> & -> & _ & ->).
  repeat split; try reflexivity;
    unfold dimensions, getHeightWidth;
    destruct (stimulus_height trial) as [h|], (stimulus_width trial) as [w|],
      (maintain_aspect_ratio trial); cbn; discriminate.
Qed.

(** X26: whatever the image is when [renderImageOnCanvas] runs and when it has
    loaded, the two together draw it exactly once: at once if it is
    complete and both dimensions are finite, otherwise on load and with
    the dimensions of the loaded image. *)
Theorem image_is_drawn_exactly_once (trial : Trial) (at_call loaded : Image) :
  draws (ops (render_onload trial loaded (renderImageOnCanvas trial at_call))) =
  if complete at_call && isFinite (fst (dimensions trial at_call))
     && isFinite (snd (dimensions trial at_call))
  then [DrawImage at_call (fst (dimensions trial at_call))
                  (snd (dimensions trial at_call))]
  else [DrawImage loaded (fst (dimensions trial loaded))
                  (snd (dimensions trial loaded))].
Proof.
  unfold renderImageOnCanvas.
  destruct (getHeightWidth_dimensions trial at_call (fresh []))
    as (Hw & Hh & Hd & Ho).
  rewrite Hw, Hh.
  destruct (complete at_call && _ && _).
  - unfold render_onload. fields. rewrite Ho. reflexivity.
  - unfold render_onload. rewrite Hd. fields.
    destruct (getHeightWidth_dimensions trial loaded
                (getHeightWidth trial at_call (fresh [])))
      as (-> & -> & _ & ->).
    rewrite Ho. reflexivity.
Qed.

(** X27: [changeImageOnCanvas] clears and draws once on load, with the
    dimensions computed when it was called: the size of the image as it
    then was, not as it has loaded. *)
Theorem swapped_image_keeps_the_size_of_the_call (trial : Trial)
    (before : list Op) (at_call loaded : Image) :
  ops (change_onload loaded (changeImageOnCanvas trial before at_call)) =
  before ++ [SetHeight (snd (dimensions trial at_call));
             SetWidth (fst (dimensions trial at_call));
             ClearRect;
             DrawImage loaded (fst (dimensions trial at_call))
                       (snd (dimensions trial at_call))].
Proof.
  unfold change_onload, changeImageOnCanvas, updateDimensions.
  destruct (getHeightWidth_dimensions trial at_call (fresh before))
    as (Hw & Hh & _ & Ho).
  fields. rewrite Hw, Hh, Ho. fields. rewrite <- !app_assoc. reflexivity.
Qed.

Lemma dimensions_natural (trial : Trial) (img : Image) :
  natural_size trial ->
  dimensions trial img =
  (Some (of_long (naturalWidth img)), Some (of_long (naturalHeight img))).
Proof.
  intros [Hh Hw]. unfold dimensions, getHeightWidth. rewrite Hh, Hw.
  reflexivity.
Qed.

(** X28: with no size configured, an image that is not available when it is
    first rendered is drawn at its natural size once loaded; the same
    image swapped in by [changeImageOnCanvas] is drawn 0 by 0, whatever
    its size turns out to be. *)
Theorem unsized_swap_of_pending_image_is_empty (trial : Trial)
    (at_call loaded : Image) :
  natural_size trial ->
  complete at_call = false ->
  naturalWidth at_call = 0 -> naturalHeight at_call = 0 ->
  draws (ops (render_onload trial loaded (renderImageOnCanvas trial at_call))) =
  [DrawImage loaded (Some (of_long (naturalWidth loaded)))
             (Some (of_long (naturalHeight loaded)))] /\
  draws (ops (change_onload loaded (changeImageOnCanvas trial [] at_call))) =
  [DrawImage loaded (Some (of_long 0)) (Some (of_long 0))].
Proof.
  intros Hnat Hc Hnw Hnh. split.
  - unfold renderImageOnCanvas. rewrite Hc. cbn [andb].
    unfold render_onload.
    destruct (getHeightWidth_dimensions trial at_call (fresh []))
      as (_ & _ & -> & Ho).
    fields.
    destruct (getHeightWidth_dimensions trial loaded
                (getHeightWidth trial at_call (fresh [])))
      as (-> & -> & _ & ->).
    rewrite Ho, (dimensions_natural trial loaded Hnat). reflexivity.
  - unfold change_onload, changeImageOnCanvas, updateDimensions.
    destruct (getHeightWidth_dimensions trial at_call (fresh []))
      as (Hw & Hh & _ & Ho).
    fields. rewrite Hw, Hh, Ho.
    rewrite (dimensions_natural trial at_call Hnat), Hnw, Hnh. reflexivity.
Qed.

Lemma zero_times_quotient_by_zero (x : PrimFloat.float) :
  PrimFloat.is_finite
    (PrimFloat.mul (of_long 0) (PrimFloat.div x (of_long 0))) = false.
Proof.
  unfold PrimFloat.is_finite.
  assert (H : PrimFloat.is_nan
                (PrimFloat.mul (of_long 0) (PrimFloat.div x (of_long 0)))
              = true).
  { unfold PrimFloat.is_nan.
    rewrite FloatAxioms.eqb_spec, FloatAxioms.mul_spec, FloatAxioms.div_spec.
    change (FloatOps.Prim2SF (of_long 0)) with (SpecFloat.S754_zero false).
    destruct (FloatOps.Prim2SF x) as [s|s| |s m e]; try destruct s;
      reflexivity. }
  rewrite H. reflexivity.
Qed.

(** X29: with one dimension configured and the aspect ratio kept, an image
    whose natural size is still 0 by 0 gives a derived dimension that is
    not a finite number, so [renderImageOnCanvas] draws nothing itself,
    even if the image reports [complete]. *)
Theorem derived_dimension_needs_a_loaded_image (trial : Trial)
    (img : Image) :
  maintain_aspect_ratio trial = true ->
  (stimulus_height trial <> None /\ stimulus_width trial = None) \/
  (stimulus_height trial = None /\ stimulus_width trial <> None) ->
  naturalWidth img = 0 -> naturalHeight img = 0 ->
  draws (ops (renderImageOnCanvas trial img)) = [] /\
  image_drawn (renderImageOnCanvas trial img) = false.
Proof.
  intros Hm Hcfg Hnw Hnh.
  assert (Hfin : isFinite (fst (dimensions trial img))
                 && isFinite (snd (dimensions trial img)) = false).
  { unfold dimensions, getHeightWidth. rewrite Hm, Hnw, Hnh.
    destruct Hcfg as [[Hh Hw]|[Hh Hw]]; rewrite Hw || rewrite Hh.
    - destruct (stimulus_height trial) as [h|]; [|congruence].
      cbn [fst snd isFinite width height canvas_op set_width set_height fresh
           negb].
      rewrite zero_times_quotient_by_zero. reflexivity.
    - destruct (stimulus_width trial) as [w|]; [|congruence].
      cbn [fst snd isFinite width height canvas_op set_width set_height fresh
           negb].
      rewrite zero_times_quotient_by_zero. apply andb_false_r. }
  unfold renderImageOnCanvas.
  destruct (getHeightWidth_dimensions trial img (fresh []))
    as (Hw & Hh & Hd & Ho).
  rewrite Hw, Hh, <- andb_assoc, Hfin, andb_false_r, Hd, Ho.
  split; reflexivity.
Qed.

(** The photo, pending at the call and 400 by 300 once loaded. *)
Lemma unsized_swap_of_pending_image_is_empty_witness :
  natural_size unsized /\
  complete pending = false /\
  naturalWidth pending = 0 /\ naturalHeight pending = 0 /\
  draws (ops (render_onload unsized photo
                (renderImageOnCanvas unsized pending))) =
  [DrawImage photo (Some (of_long 400)) (Some (of_long 300))] /\
  draws (ops (change_onload photo (changeImageOnCanvas unsized [] pending))) =
  [DrawImage photo (Some (of_long 0)) (Some (of_long 0))].
Proof.
  split; [split; reflexivity|]. split; [reflexivity|].
  split; [reflexivity|]. split; [reflexivity|].
  apply (unsized_swap_of_pending_image_is_empty unsized pending photo).
  - split; reflexivity.
  - reflexivity.
  - reflexivity.
  - reflexivity.
Defined.

(** A height of 150 and an image that reports [complete] but has no
    size. *)
Lemma derived_dimension_needs_a_loaded_image_witness :
  maintain_aspect_ratio height_150 = true /\
  stimulus_height height_150 <> None /\
  stimulus_width height_150 = None /\
  naturalWidth broken = 0 /\ naturalHeight broken = 0 /\
  draws (ops (renderImageOnCanvas height_150 broken)) = [] /\
  image_drawn (renderImageOnCanvas height_150 broken) = false.
Proof.
  split; [reflexivity|]. split; [discriminate|]. split; [reflexivity|].
  split; [reflexivity|]. split; [reflexivity|].
  apply (derived_dimension_needs_a_loaded_image height_150 broken).
  - reflexivity.
  - left. split; [discriminate|reflexivity].
  - reflexivity.
  - reflexivity.
Defined.

End CanvasFacts.
